(** * A shallow embedding of the video-editor component (src/App.tsx)

    The React component [VideoPlayer] is modelled as an event-driven
    transition system.  Its [useState] cells, the DOM objects it reaches
    through refs (the video element, the hidden canvas, the timeline div),
    the browser's object-URL store and the ffmpeg.wasm instance are explicit
    parts of the state; every listener or handler of the component is a
    function on that state; every [await] is a suspension point at which the
    pending continuation is stored in the state and resumed by the event
    that settles the awaited promise.

    Numbers.  A JavaScript number is modelled by an exact rational or one of
    the special values NaN, Infinity, -Infinity.  Rounding of binary floating
    point and the sign of zero are not modelled. *)

From Stdlib Require Import QArith Lqa ZArith List String Sorted.
From stdpp Require Import gmap strings list fin_maps.

Open Scope string_scope.

(** ** JavaScript numbers *)

Module JS.

Inductive number : Type :=
| Num (q : Q)
| NaN
| PosInf
| NegInf.

Definition isFinite (x : number) : bool :=
  match x with Num _ => true | _ => false end.

(** The sign of a rational: [Lt] negative, [Eq] zero, [Gt] positive. *)
Definition sign (q : Q) : comparison := (q ?= 0)%Q.

(** [x * y] *)
Definition mul (x y : number) : number :=
  match x, y with
  | NaN, _ | _, NaN => NaN
  | Num a, Num b => Num (a * b)
  | Num a, PosInf | PosInf, Num a =>
      match sign a with Eq => NaN | Gt => PosInf | Lt => NegInf end
  | Num a, NegInf | NegInf, Num a =>
      match sign a with Eq => NaN | Gt => NegInf | Lt => PosInf end
  | PosInf, PosInf | NegInf, NegInf => PosInf
  | PosInf, NegInf | NegInf, PosInf => NegInf
  end.

(** [x / y].  A finite number divided by zero is NaN or an infinity. *)
Definition div (x y : number) : number :=
  match x, y with
  | NaN, _ | _, NaN => NaN
  | Num a, Num b =>
      match sign b with
      | Eq => match sign a with Eq => NaN | Gt => PosInf | Lt => NegInf end
      | _ => Num (a / b)
      end
  | Num _, (PosInf | NegInf) => Num 0
  | PosInf, Num b => match sign b with Lt => NegInf | _ => PosInf end
  | NegInf, Num b => match sign b with Lt => PosInf | _ => NegInf end
  | (PosInf | NegInf), (PosInf | NegInf) => NaN
  end.

(** [x <= y] *)
Definition le (x y : number) : bool :=
  match x, y with
  | NaN, _ | _, NaN => false
  | Num a, Num b => Qle_bool a b
  | NegInf, _ | _, PosInf => true
  | _, _ => false
  end.

(** [x === y] *)
Definition strict_eq (x y : number) : bool :=
  match x, y with
  | Num a, Num b => Qeq_bool a b
  | PosInf, PosInf | NegInf, NegInf => true
  | _, _ => false
  end.

(** [Math.min(x, y)] *)
Definition Math_min (x y : number) : number :=
  match x, y with
  | NaN, _ | _, NaN => NaN
  | _, _ => if le x y then x else y
  end.

(** A loop counter or a DOM integer read as a number. *)
Definition of_Z (z : Z) : number := Num (inject_Z z).
Definition of_nat (n : nat) : number := of_Z (Z.of_nat n).

End JS.

Import JS.

(** ** Data *)

Definition bytes : Type := list Byte.byte.

(** An image as produced by [canvas.toDataURL()] after
    [context.drawImage(video, ...)]: the encoding is opaque, the model keeps
    what the bitmap shows, namely the picture of the resource at the position
    the video element displayed when it was drawn. *)
Record Picture : Type := { pic_src : option nat; pic_at : number }.

(** [type Frame = { time: number; image: string }] *)
Record Frame : Type := { time : number; image : Picture }.

(** A [Blob] (a [File] is one): its bytes and its MIME type. *)
Record Blob : Type := { blob_data : bytes; blob_type : string }.

(** An object URL ([URL.createObjectURL]) is a non-empty string that names
    one entry of the browser's blob store; the model uses the entry's index.
    As object URLs are non-empty, [!url] is false for every one of them. *)
Definition Url : Type := nat.

(** One argument of [ffmpeg.run].  [NumStr x] stands for the string
    [x.toString()], whose decimal rendering is left symbolic. *)
Inductive Arg : Type :=
| Str (s : string)
| NumStr (x : number).

(** A call on the ffmpeg.wasm instance, as the engine sees it. *)
Inductive EngineCall : Type :=
| CallSetProgress
| CallLoad
| CallWriteFile (name : string) (data : bytes)
| CallRun (args : list Arg)
| CallReadFile (name : string).

(** The suspension points of [trimVideo]. *)
Inductive TrimStage : Type :=
| AwaitFetch   (* await fetchFile(videoSrc) *)
| AwaitRun.    (* await ffmpeg.run(...) *)

(** A pending call of [trimVideo]: the values its closure captured when it
    was invoked, and the [await] it is suspended at. *)
Record TrimJob : Type := {
  job_src : Url;
  job_start : number;
  job_duration : number;
  job_stage : TrimStage
}.

(** A pending call of [captureFrames], suspended in its loop on the promise
    that its [seeked] handler resolves: the local variables [interval], [i]
    and [thumbnails]. *)
Record Sampler : Type := {
  interval : number;
  i : nat;
  thumbnails : list Frame
}.

(** The [useState] cells of the component. *)
Record Ui : Type := {
  videoSrc : option Url;
  trimmedSrc : option Url;
  frames : list Frame;
  cursorTime : number;
  ffmpegReady : bool;
  processingProgress : number;
  error : option string;
  trimStart : number;
  trimDuration : number
}.

(** The video element.  [currentTime] is the official playback position,
    which an assignment moves at once; [shown] is the position of the
    picture on display, which follows when the seek has settled.  The
    clamping of an assigned position to the resource's range is the
    element's own business and is not modelled. *)
Record Video : Type := {
  duration : number;
  currentTime : number;
  paused : bool;
  ended : bool;
  shown : number
}.

(** What the component reaches in the browser: the video element (mounted
    exactly when [videoSrc] is set, as are the canvas and the timeline),
    whether the canvas yields a 2d context, the timeline's [clientWidth],
    the handlers registered for [seeked] in registration order, and the
    blob store behind the object URLs. *)
Record Dom : Type := {
  video : Video;
  context2d : bool;
  clientWidth : Z;
  seeked : list Sampler;
  blobs : list Blob
}.

(** The ffmpeg.wasm instance: whether [ffmpeg.load()] is pending, its
    virtual file system and the calls made on it, oldest first. *)
Record Ffmpeg : Type := {
  loading : bool;
  FS : gmap string bytes;
  calls : list EngineCall
}.

Record State : Type := {
  ui : Ui;
  dom : Dom;
  ffmpeg : Ffmpeg;
  jobs : gmap nat TrimJob;
  next_job : nat
}.

(** ** State updates *)

Definition with_ui (f : Ui -> Ui) (s : State) : State :=
  {| ui := f (ui s); dom := dom s; ffmpeg := ffmpeg s;
     jobs := jobs s; next_job := next_job s |}.

Definition with_dom (f : Dom -> Dom) (s : State) : State :=
  {| ui := ui s; dom := f (dom s); ffmpeg := ffmpeg s;
     jobs := jobs s; next_job := next_job s |}.

Definition with_ffmpeg (f : Ffmpeg -> Ffmpeg) (s : State) : State :=
  {| ui := ui s; dom := dom s; ffmpeg := f (ffmpeg s);
     jobs := jobs s; next_job := next_job s |}.

Definition with_jobs (f : gmap nat TrimJob -> gmap nat TrimJob) (s : State) : State :=
  {| ui := ui s; dom := dom s; ffmpeg := ffmpeg s;
     jobs := f (jobs s); next_job := next_job s |}.

(** The setters returned by [useState]. *)

Definition setVideoSrc (v : option Url) : State -> State :=
  with_ui (fun u =>
    {| videoSrc := v; trimmedSrc := trimmedSrc u; frames := frames u;
       cursorTime := cursorTime u; ffmpegReady := ffmpegReady u;
       processingProgress := processingProgress u; error := error u;
       trimStart := trimStart u; trimDuration := trimDuration u |}).

Definition setTrimmedSrc (v : option Url) : State -> State :=
  with_ui (fun u =>
    {| videoSrc := videoSrc u; trimmedSrc := v; frames := frames u;
       cursorTime := cursorTime u; ffmpegReady := ffmpegReady u;
       processingProgress := processingProgress u; error := error u;
       trimStart := trimStart u; trimDuration := trimDuration u |}).

Definition setFrames (v : list Frame) : State -> State :=
  with_ui (fun u =>
    {| videoSrc := videoSrc u; trimmedSrc := trimmedSrc u; frames := v;
       cursorTime := cursorTime u; ffmpegReady := ffmpegReady u;
       processingProgress := processingProgress u; error := error u;
       trimStart := trimStart u; trimDuration := trimDuration u |}).

Definition setCursorTime (v : number) : State -> State :=
  with_ui (fun u =>
    {| videoSrc := videoSrc u; trimmedSrc := trimmedSrc u; frames := frames u;
       cursorTime := v; ffmpegReady := ffmpegReady u;
       processingProgress := processingProgress u; error := error u;
       trimStart := trimStart u; trimDuration := trimDuration u |}).

Definition setFfmpegReady (v : bool) : State -> State :=
  with_ui (fun u =>
    {| videoSrc := videoSrc u; trimmedSrc := trimmedSrc u; frames := frames u;
       cursorTime := cursorTime u; ffmpegReady := v;
       processingProgress := processingProgress u; error := error u;
       trimStart := trimStart u; trimDuration := trimDuration u |}).

Definition setProcessingProgress (v : number) : State -> State :=
  with_ui (fun u =>
    {| videoSrc := videoSrc u; trimmedSrc := trimmedSrc u; frames := frames u;
       cursorTime := cursorTime u; ffmpegReady := ffmpegReady u;
       processingProgress := v; error := error u;
       trimStart := trimStart u; trimDuration := trimDuration u |}).

Definition setError (v : option string) : State -> State :=
  with_ui (fun u =>
    {| videoSrc := videoSrc u; trimmedSrc := trimmedSrc u; frames := frames u;
       cursorTime := cursorTime u; ffmpegReady := ffmpegReady u;
       processingProgress := processingProgress u; error := v;
       trimStart := trimStart u; trimDuration := trimDuration u |}).

Definition setTrimStart (v : number) : State -> State :=
  with_ui (fun u =>
    {| videoSrc := videoSrc u; trimmedSrc := trimmedSrc u; frames := frames u;
       cursorTime := cursorTime u; ffmpegReady := ffmpegReady u;
       processingProgress := processingProgress u; error := error u;
       trimStart := v; trimDuration := trimDuration u |}).

Definition setTrimDuration (v : number) : State -> State :=
  with_ui (fun u =>
    {| videoSrc := videoSrc u; trimmedSrc := trimmedSrc u; frames := frames u;
       cursorTime := cursorTime u; ffmpegReady := ffmpegReady u;
       processingProgress := processingProgress u; error := error u;
       trimStart := trimStart u; trimDuration := v |}).

(** Updates of the browser's and the engine's side. *)

Definition set_video (v : Video) : State -> State :=
  with_dom (fun d =>
    {| video := v; context2d := context2d d; clientWidth := clientWidth d;
       seeked := seeked d; blobs := blobs d |}).

Definition set_clientWidth (w : Z) : State -> State :=
  with_dom (fun d =>
    {| video := video d; context2d := context2d d; clientWidth := w;
       seeked := seeked d; blobs := blobs d |}).

Definition set_seeked (l : list Sampler) : State -> State :=
  with_dom (fun d =>
    {| video := video d; context2d := context2d d; clientWidth := clientWidth d;
       seeked := l; blobs := blobs d |}).

Definition set_blobs (l : list Blob) : State -> State :=
  with_dom (fun d =>
    {| video := video d; context2d := context2d d; clientWidth := clientWidth d;
       seeked := seeked d; blobs := l |}).

Definition set_loading (b : bool) : State -> State :=
  with_ffmpeg (fun e => {| loading := b; FS := FS e; calls := calls e |}).

Definition set_FS (m : gmap string bytes) : State -> State :=
  with_ffmpeg (fun e => {| loading := loading e; FS := m; calls := calls e |}).

(** Records one more call on the engine. *)
Definition log_call (c : EngineCall) : State -> State :=
  with_ffmpeg (fun e =>
    {| loading := loading e; FS := FS e; calls := calls e ++ [c] |}).

(** The next identifier for a pending [trimVideo] call. *)
Definition bump_job (s : State) : State :=
  {| ui := ui s; dom := dom s; ffmpeg := ffmpeg s;
     jobs := jobs s; next_job := S (next_job s) |}.

(** ** Browser and engine primitives *)

(** [videoRef.current], [canvasRef.current] and [timelineRef.current]: the
    three elements are rendered inside [{videoSrc && ...}], so each ref is
    null exactly when [videoSrc] is. *)
Definition mounted (s : State) : bool :=
  match videoSrc (ui s) with Some _ => true | None => false end.

Definition videoRef (s : State) : option Video :=
  if mounted s then Some (video (dom s)) else None.

Definition timelineRef (s : State) : option Z :=
  if mounted s then Some (clientWidth (dom s)) else None.

(** [URL.createObjectURL(blob)]: stores the blob and returns its URL. *)
Definition createObjectURL (b : Blob) (s : State) : Url * State :=
  (length (blobs (dom s)), set_blobs (blobs (dom s) ++ [b]) s).

(** [video.currentTime = t].  The attribute is a restricted double: the
    assignment of NaN or an infinity throws a TypeError and leaves the
    element as it was; the result says whether the assignment went
    through. *)
Definition assign_currentTime (t : number) (s : State) : bool * State :=
  if isFinite t then
    let v := video (dom s) in
    (true, set_video {| duration := duration v; currentTime := t;
                        paused := paused v; ended := ended v;
                        shown := shown v |} s)
  else (false, s).

(** [context.drawImage(video, 0, 0, w, h)] followed by
    [canvas.toDataURL()]. *)
Definition capture (s : State) : Picture :=
  {| pic_src := videoSrc (ui s); pic_at := shown (video (dom s)) |}.

(** [ffmpeg.FS("writeFile", name, data)] *)
Definition FS_writeFile (name : string) (data : bytes) (s : State) : State :=
  log_call (CallWriteFile name data) (set_FS (<[name := data]> (FS (ffmpeg s))) s).

(** [ffmpeg.FS("readFile", name)]: throws when there is no such file
    ([None]). *)
Definition FS_readFile (name : string) (s : State) : option bytes * State :=
  (FS (ffmpeg s) !! name, log_call (CallReadFile name) s).

(** ** The component's functions *)

Definition msg_load_failed : string := "Ошибка при загрузке FFmpeg".
Definition msg_trim_failed : string := "Ошибка при обрезке видео".

(** [handleFileChange], on [e.target.files?.[0]]. *)
Definition handleFileChange (file : option Blob) (s : State) : State :=
  match file with
  | Some f =>
      let '(url, s) := createObjectURL f s in
      let s := setVideoSrc (Some url) s in
      let s := setTrimmedSrc None s in
      let s := setFrames [] s in
      let s := setCursorTime (Num 0) s in
      let s := setTrimStart (Num 0) s in
      let s := setTrimDuration (Num 5) s in
      let s := setError None s in
      setProcessingProgress (Num 0) s
  | None => s
  end.

(** The arguments [trimVideo] passes to [ffmpeg.run]. *)
Definition trim_args (start len : number) : list Arg :=
  [Str "-ss"; NumStr start; Str "-i"; Str "input.mp4";
   Str "-t"; NumStr len; Str "-c"; Str "copy"; Str "output.mp4"].

(** [trimVideo], up to its first [await]: the guard, the two resets and the
    call of [fetchFile(videoSrc)].  The pending call keeps the [videoSrc],
    [trimStart] and [trimDuration] its closure was created with. *)
Definition trimVideo (s : State) : State :=
  match ffmpegReady (ui s), videoSrc (ui s) with
  | true, Some src =>
      let s := setError None s in
      let s := setProcessingProgress (Num 0) s in
      let job := {| job_src := src; job_start := trimStart (ui s);
                    job_duration := trimDuration (ui s);
                    job_stage := AwaitFetch |} in
      bump_job (with_jobs (insert (next_job s) job) s)
  | _, _ => s
  end.

(** The [catch] block of [trimVideo], which ends call [j].
    ([console.error] has no effect on the state.) *)
Definition trim_catch (j : nat) (s : State) : State :=
  setError (Some msg_trim_failed) (with_jobs (delete j) s).

(** [trimVideo] from the settlement of [fetchFile] to [await ffmpeg.run].
    [fetchFile] on an object URL yields the bytes of the blob it names. *)
Definition trim_fetched (j : nat) (s : State) : State :=
  match jobs s !! j with
  | Some job =>
      match job_stage job, blobs (dom s) !! job_src job with
      | AwaitFetch, Some blob =>
          let s := FS_writeFile "input.mp4" (blob_data blob) s in
          let s := log_call (CallRun (trim_args (job_start job) (job_duration job))) s in
          with_jobs (insert j {| job_src := job_src job; job_start := job_start job;
                                 job_duration := job_duration job;
                                 job_stage := AwaitRun |}) s
      | AwaitFetch, None => trim_catch j s
      | AwaitRun, _ => s
      end
  | None => s
  end.

(** [fetchFile] rejected. *)
Definition trim_fetch_failed (j : nat) (s : State) : State :=
  match jobs s !! j with
  | Some job =>
      match job_stage job with
      | AwaitFetch => trim_catch j s
      | AwaitRun => s
      end
  | None => s
  end.

(** [trimVideo] after [ffmpeg.run] resolved: read the output, wrap it in a
    blob, publish its object URL.  What the promise resolved to is not
    looked at; a missing output is noticed when the read throws. *)
Definition trim_ran (j : nat) (s : State) : State :=
  match jobs s !! j with
  | Some job =>
      match job_stage job with
      | AwaitRun =>
          match FS_readFile "output.mp4" s with
          | (Some data, s) =>
              let trimmedBlob := {| blob_data := data; blob_type := "video/mp4" |} in
              let '(trimmedUrl, s) := createObjectURL trimmedBlob s in
              with_jobs (delete j) (setTrimmedSrc (Some trimmedUrl) s)
          | (None, s) => trim_catch j s   (* the read was made, and threw *)
          end
      | AwaitFetch => s
      end
  | None => s
  end.

(** [ffmpeg.run] rejected. *)
Definition trim_run_failed (j : nat) (s : State) : State :=
  match jobs s !! j with
  | Some job =>
      match job_stage job with
      | AwaitRun => trim_catch j s
      | AwaitFetch => s
      end
  | None => s
  end.

Definition frameCount : nat := 10.

(** The [time] of the sample with index [k]: [i * interval]. *)
Definition sample_time (iv : number) (k : nat) : number := mul (of_nat k) iv.

(** The head of the loop of [captureFrames] with the locals [r]: either the
    next handler is registered and the seek requested, or the loop is over
    and the thumbnails are published.  When the assignment of
    [video.currentTime] throws, the promise rejects and the call ends there;
    its handler stays registered but nothing reads what it would push. *)
Definition sampler_loop (r : Sampler) (s : State) : State :=
  if (i r <=? frameCount)%nat then
    match assign_currentTime (sample_time (interval r) (i r)) s with
    | (true, s) => set_seeked (seeked (dom s) ++ [r]) s
    | (false, _) => s
    end
  else setFrames (thumbnails r) s.

(** The [seeked] handler of the pending call [r], then the rest of the
    loop body: draw, push the frame, unregister, resolve, increment. *)
Definition seeked_handler (r : Sampler) (s : State) : State :=
  let frame := {| time := sample_time (interval r) (i r); image := capture s |} in
  sampler_loop {| interval := interval r; i := S (i r);
                  thumbnails := thumbnails r ++ [frame] |} s.

(** [captureFrames], up to its first [await]. *)
Definition captureFrames (s : State) : State :=
  match videoRef s with
  | Some video =>
      if context2d (dom s) then
        sampler_loop {| interval := div (duration video) (of_nat frameCount);
                        i := 0; thumbnails := [] |} s
      else s
  | None => s
  end.

(** [onTimelineClick] *)
Definition onTimelineClick (t : number) (s : State) : State :=
  match videoRef s with
  | Some _ => snd (assign_currentTime t s)
  | None => s
  end.

(** [getCursorPosition] *)
Definition getCursorPosition (s : State) : number :=
  match videoRef s, timelineRef s with
  | Some video, Some clientWidth =>
      if strict_eq (duration video) (Num 0) then Num 0
      else
        let ratio := div (cursorTime (ui s)) (duration video) in
        let width := of_Z clientWidth in
        Math_min (mul ratio width) width
  | _, _ => Num 0
  end.

(** [updateCursor], the [timeupdate] listener. *)
Definition updateCursor (s : State) : State :=
  let v := video (dom s) in
  if negb (paused v) && negb (ended v) then setCursorTime (currentTime v) s else s.

(** [onEnded], the [ended] listener. *)
Definition onEnded (s : State) : State :=
  setCursorTime (duration (video (dom s))) s.

(** ** Events and the transition function *)

Inductive Event : Type :=
| FileChange (file : option Blob)        (* the file input changed *)
| TrimStartChange (v : number)           (* parseFloat of the start input *)
| TrimDurationChange (v : number)        (* parseFloat of the duration input *)
| TrimClick                              (* click on the trim button *)
| FrameClick (index : nat)               (* click on a thumbnail *)
| FfmpegLoaded                           (* ffmpeg.load() resolved *)
| FfmpegLoadFailed                       (* ffmpeg.load() rejected *)
| FfmpegProgress (ratio : number)        (* the engine's progress callback *)
| FetchResolved (job : nat)              (* fetchFile resolved *)
| FetchRejected (job : nat)              (* fetchFile rejected *)
| RunResolved (job : nat)                (* ffmpeg.run resolved *)
| RunRejected (job : nat)                (* ffmpeg.run rejected *)
| EngineWrite (name : string) (data : bytes)  (* the engine writes a file *)
| LoadedMetadata (d : number)            (* the resource's duration is known *)
| Seeked                                 (* a seek has settled *)
| SeekFailed                             (* a seek failed: no seeked follows *)
| TimeUpdate (t : number) (p e : bool)   (* the playback position moved *)
| Ended                                  (* playback reached the end *)
| Resize (w : Z).                        (* the timeline was laid out anew *)

(** The video element after the browser started loading a new [src]. *)
Definition fresh_video : Video :=
  {| duration := NaN; currentTime := Num 0; paused := true;
     ended := false; shown := Num 0 |}.

(** The handlers [rs] run one after the other. *)
Definition run_handlers (rs : list Sampler) (s : State) : State :=
  fold_left (fun st r => seeked_handler r st) rs s.

(** The browser dispatches [seeked]: the picture on display is now the one
    at [currentTime]; the handlers registered at that moment run in
    registration order, each followed by the continuation it resolves. *)
Definition dispatch_seeked (s : State) : State :=
  let v := video (dom s) in
  let s := set_video {| duration := duration v; currentTime := currentTime v;
                        paused := paused v; ended := ended v;
                        shown := currentTime v |} s in
  run_handlers (seeked (dom s)) (set_seeked [] s).

Definition step (ev : Event) (s : State) : State :=
  match ev with
  | FileChange file =>
      match file with
      | Some _ => set_video fresh_video (handleFileChange file s)
      | None => handleFileChange file s
      end
  | TrimStartChange v => if mounted s then setTrimStart v s else s
  | TrimDurationChange v => if mounted s then setTrimDuration v s else s
  | TrimClick =>
      (* the button is rendered with the video and disabled until ready *)
      if mounted s && ffmpegReady (ui s) then trimVideo s else s
  | FrameClick index =>
      if mounted s then
        match frames (ui s) !! index with
        | Some frame => onTimelineClick (time frame) s
        | None => s
        end
      else s
  | FfmpegLoaded =>
      if loading (ffmpeg s) then setFfmpegReady true (set_loading false s) else s
  | FfmpegLoadFailed =>
      if loading (ffmpeg s)
      then setError (Some msg_load_failed) (set_loading false s) else s
  | FfmpegProgress ratio => setProcessingProgress ratio s
  | FetchResolved j => trim_fetched j s
  | FetchRejected j => trim_fetch_failed j s
  | RunResolved j => trim_ran j s
  | RunRejected j => trim_run_failed j s
  | EngineWrite name data => set_FS (<[name := data]> (FS (ffmpeg s))) s
  | LoadedMetadata d =>
      if mounted s then
        let v := video (dom s) in
        captureFrames
          (set_video {| duration := d; currentTime := currentTime v;
                        paused := paused v; ended := ended v;
                        shown := shown v |} s)
      else s
  | Seeked => if mounted s then dispatch_seeked s else s
  | SeekFailed => s   (* the component listens to no error event *)
  | TimeUpdate t p e =>
      if mounted s then
        updateCursor
          (set_video {| duration := duration (video (dom s)); currentTime := t;
                        paused := p; ended := e; shown := t |} s)
      else s
  | Ended =>
      if mounted s then
        let v := video (dom s) in
        onEnded
          (set_video {| duration := duration v; currentTime := currentTime v;
                        paused := paused v; ended := true;
                        shown := shown v |} s)
      else s
  | Resize w => set_clientWidth w s
  end.

(** Events are handled one at a time, each to completion. *)
Definition run_events (evs : list Event) (s : State) : State :=
  fold_left (fun st ev => step ev st) evs s.

(** The component after its first render and effects, which run in the
    order they are declared: [ffmpeg.setProgress(...)] has registered the
    progress callback, then [ffmpeg.load()] has been called and is pending.
    Nothing is loaded. *)
Definition init (ctx : bool) (w : Z) : State :=
  {| ui := {| videoSrc := None; trimmedSrc := None; frames := [];
              cursorTime := Num 0; ffmpegReady := false;
              processingProgress := Num 0; error := None;
              trimStart := Num 0; trimDuration := Num 5 |};
     dom := {| video := fresh_video; context2d := ctx; clientWidth := w;
               seeked := []; blobs := [] |};
     ffmpeg := {| loading := true; FS := ∅; calls := [CallSetProgress; CallLoad] |};
     jobs := ∅;
     next_job := 0 |}.

Inductive reachable : State -> Prop :=
| reachable_init ctx w : reachable (init ctx w)
| reachable_step ev s : reachable s -> reachable (step ev s).

(** ** Predicates used by the statements *)

(** Times that never decrease, in the sense of JavaScript's [<=]. *)
Definition nondecreasing (l : list number) : Prop :=
  forall a b x y, (a <= b)%nat -> l !! a = Some x -> l !! b = Some y -> le x y = true.

(** The times of a complete strip sampled with interval [iv]. *)
Definition strip_times (iv : number) : list number :=
  map (sample_time iv) (seq 0 (S frameCount)).

(** A pending call of [trimVideo] awaits the engine. *)
Definition running (s : State) (j : nat) : Prop :=
  exists job, jobs s !! j = Some job /\ job_stage job = AwaitRun.

(** The calls of [ffmpeg.run] among the calls on the engine. *)
Definition runs (l : list EngineCall) : list (list Arg) :=
  omap (fun c => match c with CallRun a => Some a | _ => None end) l.

(** The change events of the two numeric inputs. *)
Definition is_edit (ev : Event) : Prop :=
  match ev with
  | TrimStartChange _ | TrimDurationChange _ => True
  | _ => False
  end.

(** The frames of the strip all carry a finite time. *)
Definition finite_times (fs : list Frame) : Prop :=
  Forall (fun f => isFinite (time f) = true) fs.

(** The strip is empty or complete, never partial. *)
Definition empty_or_complete (fs : list Frame) : Prop :=
  fs = [] \/ exists iv, map time fs = strip_times iv.

(** The locals with which [captureFrames] enters the head of its loop are
    consistent: the samples below the counter have been pushed, each with
    the time of its index. *)
Definition locals_ok (r : Sampler) : Prop :=
  (i r <= S frameCount)%nat /\
  finite_times (thumbnails r) /\
  map time (thumbnails r) = map (sample_time (interval r)) (seq 0 (i r)).

(** A pending [captureFrames] call is inside its loop, with consistent
    locals, and the seek it requested was to a finite time. *)
Definition sampler_ok (r : Sampler) : Prop :=
  (i r <= frameCount)%nat /\
  isFinite (sample_time (interval r) (i r)) = true /\
  finite_times (thumbnails r) /\
  map time (thumbnails r) = map (sample_time (interval r)) (seq 0 (i r)).

(** What holds in every state the component can reach. *)
Record invariant (s : State) : Prop := {
  inv_strip : empty_or_complete (frames (ui s));
  inv_finite : finite_times (frames (ui s));
  inv_seeked : Forall sampler_ok (seeked (dom s));
  inv_frames_mounted : frames (ui s) <> [] -> mounted s = true;
  inv_jobs_gate :
    forall j job, jobs s !! j = Some job ->
      ffmpegReady (ui s) = true /\ mounted s = true;
  inv_jobs_fresh :
    forall j, is_Some (jobs s !! j) -> (j < next_job s)%nat
}.

(** The part of the invariant sampling works on. *)
Definition sampling_inv (s : State) : Prop :=
  empty_or_complete (frames (ui s)) /\
  finite_times (frames (ui s)) /\
  Forall sampler_ok (seeked (dom s)) /\
  (frames (ui s) <> [] -> mounted s = true).

(** What sampling leaves alone. *)
Definition sampler_frame (s s' : State) : Prop :=
  videoSrc (ui s') = videoSrc (ui s) /\
  trimmedSrc (ui s') = trimmedSrc (ui s) /\
  ffmpegReady (ui s') = ffmpegReady (ui s) /\
  error (ui s') = error (ui s) /\
  jobs s' = jobs s /\
  ffmpeg s' = ffmpeg s /\
  next_job s' = next_job s /\
  shown (video (dom s')) = shown (video (dom s)).

(** The call of [captureFrames] that sampling follows: it is the last one
    registered, its interval is [q], its counter [k]. *)
Definition sampling_at (q : Q) (k : nat) (s : State) : Prop :=
  mounted s = true /\
  exists old thumbs,
    seeked (dom s) = (old ++ [{| interval := Num q; i := k; thumbnails := thumbs |}])%list /\
    map time thumbs = map (sample_time (Num q)) (seq 0 k).

(** Event [ev] makes the pending [trimVideo] call [j] of [s] enter its
    [catch] block. *)
Inductive trim_fails (s : State) (j : nat) : Event -> Prop :=
| fails_fetch job :
    jobs s !! j = Some job -> job_stage job = AwaitFetch ->
    trim_fails s j (FetchRejected j)
| fails_run job :
    jobs s !! j = Some job -> job_stage job = AwaitRun ->
    trim_fails s j (RunRejected j)
| fails_read job :
    jobs s !! j = Some job -> job_stage job = AwaitRun ->
    FS (ffmpeg s) !! "output.mp4" = None ->
    trim_fails s j (RunResolved j).

(** A call the component makes on the engine once it is loaded. *)
Definition trim_call (c : EngineCall) : Prop :=
  match c with
  | CallSetProgress | CallLoad => False
  | CallWriteFile name _ => name = "input.mp4"
  | CallRun args => exists start len, args = trim_args start len
  | CallReadFile name => name = "output.mp4"
  end.

(** What holds of the object URLs and of the engine in every reachable
    state. *)
Record store_invariant (s : State) : Prop := {
  sto_video :
    forall v, videoSrc (ui s) = Some v -> (v < length (blobs (dom s)))%nat;
  sto_trimmed :
    forall u, trimmedSrc (ui s) = Some u ->
      videoSrc (ui s) <> Some u /\
      exists b, blobs (dom s) !! u = Some b /\ blob_type b = "video/mp4";
  sto_jobs :
    forall j job, jobs s !! j = Some job ->
      (job_src job < length (blobs (dom s)))%nat;
  sto_calls :
    exists rest, calls (ffmpeg s) = CallSetProgress :: CallLoad :: rest /\
      Forall trim_call rest /\
      (ffmpegReady (ui s) = false -> rest = []);
  sto_gate : ffmpegReady (ui s) = false -> trimmedSrc (ui s) = None;
  sto_loaded : ffmpegReady (ui s) = true -> loading (ffmpeg s) = false
}.

(** What sampling leaves alone, besides [sampler_frame]. *)
Definition sampler_frame_dom (s s' : State) : Prop :=
  blobs (dom s') = blobs (dom s) /\
  context2d (dom s') = context2d (dom s) /\
  clientWidth (dom s') = clientWidth (dom s) /\
  duration (video (dom s')) = duration (video (dom s)) /\
  cursorTime (ui s') = cursorTime (ui s) /\
  processingProgress (ui s') = processingProgress (ui s).

(** ** Sample sessions *)

Definition sample_file : Blob :=
  {| blob_data := [Byte.x00; Byte.x01]; blob_type := "video/mp4" |}.

(** A video was chosen. *)
Definition session_chosen : State :=
  step (FileChange (Some sample_file)) (init true 600).

(** Its metadata has arrived: it lasts 20 seconds. *)
Definition session_loaded : State :=
  step (LoadedMetadata (Num 20)) session_chosen.

(** The strip has been sampled. *)
Definition session_sampled : State :=
  run_events (repeat Seeked 11) session_loaded.

(** Playback has advanced to second 5. *)
Definition session_playing : State :=
  step (TimeUpdate (Num 5) false false) session_sampled.

(** The engine is ready and the user asked for 5 seconds from second 2. *)
Definition session_ready : State :=
  run_events [FfmpegLoaded; TrimStartChange (Num 2)] session_sampled.

(** A trim was submitted and the engine runs it. *)
Definition session_trimming : State :=
  run_events [TrimClick; FetchResolved 0] session_ready.

(** That trim succeeded, a second one was submitted and is running. *)
Definition session_retrimming : State :=
  run_events [EngineWrite "output.mp4" [Byte.x02]; RunResolved 0;
              TrimClick; FetchResolved 1] session_trimming.

(** Sampling got as far as the third sample. *)
Definition session_sampling : State :=
  run_events [Seeked; Seeked; Seeked] session_loaded.

(** ** Further definitions *)

(** A session in which [ffmpeg.load()] was rejected, then a file chosen. *)
Definition session_dead : State :=
  run_events [FfmpegLoadFailed; FileChange (Some sample_file)] (init true 600).

(** The events that settle the promise pending call [j] awaits. *)
Definition settles (j : nat) (ev : Event) : Prop :=
  match ev with
  | FetchResolved k | FetchRejected k | RunResolved k | RunRejected k => k = j
  | _ => False
  end.

(** The events whose handlers call [setCursorTime]: a file was chosen, the
    position moved while playing, playback ended. *)
Definition moves_cursor (ev : Event) : Prop :=
  match ev with
  | FileChange (Some _) | TimeUpdate _ false false | Ended => True
  | _ => False
  end.
(** What the two events that run sampler code, [loadedmetadata] and
    [seeked], leave alone. *)
Definition sampling_keeps (s s' : State) : Prop :=
  videoSrc (ui s') = videoSrc (ui s) /\
  trimmedSrc (ui s') = trimmedSrc (ui s) /\
  ffmpegReady (ui s') = ffmpegReady (ui s) /\
  error (ui s') = error (ui s) /\
  cursorTime (ui s') = cursorTime (ui s) /\
  processingProgress (ui s') = processingProgress (ui s) /\
  jobs s' = jobs s /\
  ffmpeg s' = ffmpeg s /\
  next_job s' = next_job s /\
  blobs (dom s') = blobs (dom s) /\
  context2d (dom s') = context2d (dom s).
(** The only pending call of [captureFrames]: it samples resource [src]
    with interval [q], its counter is [k], the seek it requested is to the
    time of sample [k], and each frame it pushed shows the picture at the
    frame's time. *)
Definition sampling_alone (src : option Url) (q : Q) (k : nat) (s : State) : Prop :=
  mounted s = true /\
  videoSrc (ui s) = src /\
  currentTime (video (dom s)) = sample_time (Num q) k /\
  exists thumbs,
    seeked (dom s) = [{| interval := Num q; i := k; thumbnails := thumbs |}] /\
    Forall (fun f => image f = {| pic_src := src; pic_at := time f |}) thumbs.
(** The events whose handlers call [setProcessingProgress]: a file was
    chosen, an enabled trim button was clicked, the engine reported
    progress. *)
Definition sets_progress (ev : Event) : Prop :=
  match ev with
  | FileChange (Some _) | TrimClick | FfmpegProgress _ => True
  | _ => False
  end.

(** The error value is one a handler of the component sets, and it fits
    the state of the engine. *)
Definition error_fits (s : State) : Prop :=
  error (ui s) = None \/
  (error (ui s) = Some msg_load_failed /\
   ffmpegReady (ui s) = false /\ loading (ffmpeg s) = false) \/
  (error (ui s) = Some msg_trim_failed /\ ffmpegReady (ui s) = true).

(** * Properties *)

(** ** Arithmetic of the number model *)

Section NumberFacts.

Lemma sign_Gt (q : Q) : (0 < q)%Q -> sign q = Gt.
Proof. intros H. unfold sign. now apply Qgt_alt. Qed.

Lemma le_Num (a b : Q) : le (Num a) (Num b) = true <-> (a <= b)%Q.
Proof. simpl. apply Qle_bool_iff. Qed.

Lemma inject_Z_nonneg (w : Z) : (0 <= w)%Z -> (0 <= inject_Z w)%Q.
Proof. intros H. change 0%Q with (inject_Z 0). now rewrite <- Zle_Qle. Qed.

Lemma Math_min_Num (a b : Q) :
  Math_min (Num a) (Num b) = Num a /\ (a <= b)%Q \/
  Math_min (Num a) (Num b) = Num b /\ (b < a)%Q.
Proof.
  unfold Math_min, le. destruct (Qle_bool a b) eqn:E.
  - left. split; [reflexivity | now apply Qle_bool_iff].
  - right. split; [reflexivity |].
    apply Qnot_le_lt. intros H. apply Qle_bool_iff in H. congruence.
Qed.

Lemma ratio_bounds (t d : Q) :
  (0 <= t)%Q -> (t <= d)%Q -> (0 < d)%Q -> (0 <= t / d)%Q /\ (t / d <= 1)%Q.
Proof.
  intros Ht Htd Hd. split.
  - apply Qle_shift_div_l; [exact Hd | lra].
  - apply Qle_shift_div_r; [exact Hd | lra].
Qed.

(** A sample time at a finite interval is finite. *)
Lemma sample_time_Num (q : Q) (k : nat) :
  sample_time (Num q) k = Num (inject_Z (Z.of_nat k) * q).
Proof. reflexivity. Qed.

(** The interval of a resource of finite duration. *)
Lemma interval_Num (D : Q) :
  div (Num D) (of_nat frameCount) = Num (D / inject_Z 10).
Proof. reflexivity. Qed.

End NumberFacts.

(** ** Sampling and the invariant *)

Lemma sampler_loop_cases (r : Sampler) (s : State) :
  (i r <= frameCount)%nat /\ isFinite (sample_time (interval r) (i r)) = true /\
    sampler_loop r s =
      set_seeked (seeked (dom s) ++ [r])
        (snd (assign_currentTime (sample_time (interval r) (i r)) s)) \/
  (i r <= frameCount)%nat /\ isFinite (sample_time (interval r) (i r)) = false /\
    sampler_loop r s = s \/
  (frameCount < i r)%nat /\ sampler_loop r s = setFrames (thumbnails r) s.
Proof.
  unfold sampler_loop, assign_currentTime.
  destruct (Nat.leb_spec (i r) frameCount) as [Hle | Hgt].
  - destruct (isFinite (sample_time (interval r) (i r))) eqn:E.
    + left. auto.
    + right. left. auto.
  - right. right. auto.
Qed.

Lemma sampler_frame_refl s : sampler_frame s s.
Proof. unfold sampler_frame. auto 10. Qed.

Lemma sampler_frame_trans s1 s2 s3 :
  sampler_frame s1 s2 -> sampler_frame s2 s3 -> sampler_frame s1 s3.
Proof. unfold sampler_frame. intuition congruence. Qed.

Lemma sampler_frame_mounted s s' : sampler_frame s s' -> mounted s' = mounted s.
Proof. unfold mounted. intros (-> & _). reflexivity. Qed.

Lemma sampler_loop_frame r s : sampler_frame s (sampler_loop r s).
Proof.
  destruct (sampler_loop_cases r s) as [(_ & E & ->) | [(_ & _ & ->) | (_ & ->)]];
    unfold sampler_frame, assign_currentTime; try rewrite E; simpl; auto 10.
Qed.

Lemma run_handlers_frame rs s : sampler_frame s (run_handlers rs s).
Proof.
  revert s. induction rs as [| r rs IH]; intros s.
  - apply sampler_frame_refl.
  - simpl. eapply sampler_frame_trans; [| apply IH].
    apply sampler_loop_frame.
Qed.

Lemma sampler_loop_inv r s :
  mounted s = true -> locals_ok r -> sampling_inv s -> sampling_inv (sampler_loop r s).
Proof.
  intros Hm (Hi & Hfin & Htimes) (Hs & Hf & Hq & Hfm).
  destruct (sampler_loop_cases r s) as [(Hle & E & ->) | [(_ & _ & ->) | (Hgt & ->)]].
  - unfold assign_currentTime. rewrite E. 
    repeat split; simpl; auto.
    apply Forall_app. split; [assumption |].
    constructor; [| constructor]. repeat split; assumption.
  - repeat split; assumption.
  - repeat split; simpl; auto.
    right. exists (interval r). unfold strip_times.
    replace (S frameCount) with (i r) by lia. exact Htimes.
Qed.

Lemma seeked_handler_inv r s :
  mounted s = true -> sampler_ok r -> sampling_inv s -> sampling_inv (seeked_handler r s).
Proof.
  intros Hm (Hi & E & Hfin & Htimes) Hs. unfold seeked_handler.
  apply sampler_loop_inv; [assumption | | assumption].
  split; [| split]; cbn [i interval thumbnails].
  - lia.
  - apply Forall_app. split; [assumption |]. constructor; [exact E | constructor].
  - rewrite map_app, seq_S, map_app, Htimes. reflexivity.
Qed.

Lemma run_handlers_inv rs s :
  mounted s = true -> Forall sampler_ok rs -> sampling_inv s -> sampling_inv (run_handlers rs s).
Proof.
  revert s. induction rs as [| r rs IH]; intros s Hm Hrs Hs; [exact Hs |].
  inversion Hrs; subst. simpl. apply IH; [| assumption |].
  - rewrite (sampler_frame_mounted s); [assumption | apply sampler_loop_frame].
  - now apply seeked_handler_inv.
Qed.

Lemma invariant_sampling s :
  invariant s <->
  sampling_inv s /\
  (forall j job, jobs s !! j = Some job ->
     ffmpegReady (ui s) = true /\ mounted s = true) /\
  (forall j, is_Some (jobs s !! j) -> (j < next_job s)%nat).
Proof.
  split.
  - intros [H1 H2 H3 H4 H5 H6]. repeat split; auto; eapply H5; eauto.
  - intros [(H1 & H2 & H3 & H4) [H5 H6]]. constructor; auto.
Qed.

(** Sampling keeps the part of the invariant that is about pending trims. *)
Lemma sampler_frame_invariant s s' :
  invariant s -> sampler_frame s s' -> sampling_inv s' -> invariant s'.
Proof.
  intros Hs (Ev & _ & Er & _ & Ej & _ & En & _) Hsi.
  apply invariant_sampling. split; [exact Hsi | split].
  - intros j job H. rewrite Ej in H. unfold mounted. rewrite Ev, Er.
    apply (inv_jobs_gate _ Hs j job H).
  - intros j H. rewrite Ej in H. rewrite En. apply (inv_jobs_fresh _ Hs j H).
Qed.

Lemma init_invariant ctx w : invariant (init ctx w).
Proof.
  constructor; simpl; auto.
  - left. reflexivity.
  - constructor.
  - intros j job H. rewrite lookup_empty in H. discriminate.
  - intros j [job H]. rewrite lookup_empty in H. discriminate.
Qed.

(** Closes the cases of an event that touches neither the strip, nor the
    handlers, nor the pending trims. *)
Ltac inv_simple Hs :=
  destruct Hs as [H1 H2 H3 H4 H5 H6]; constructor; simpl; auto.

(** Closes the cases in which pending trim [j], known by [Hj], advances or
    ends. *)
Ltac inv_job Hs Hj :=
  destruct Hs as [H1 H2 H3 H4 H5 H6]; constructor; simpl; auto;
  [ intros ? ? _; apply (H5 _ _ Hj)
  | intros j' Hj';
    first [ apply lookup_insert_is_Some in Hj' as [<- | [_ Hj']]
          | apply lookup_delete_is_Some in Hj' as [_ Hj'] ];
    auto; apply H6; rewrite Hj; eauto ].

Lemma step_invariant ev s : invariant s -> invariant (step ev s).
Proof.
  intros Hs. destruct ev; simpl.
  - (* FileChange *)
    destruct file as [f |]; [| exact Hs].
    destruct Hs as [H1 H2 H3 H4 H5 H6]; constructor; simpl; auto.
    + left. reflexivity.
    + constructor.
    + intros j job H. split; [eapply H5; eauto | reflexivity].
  - destruct (mounted s) eqn:Hm; [| exact Hs]. inv_simple Hs.
  - destruct (mounted s) eqn:Hm; [| exact Hs]. inv_simple Hs.
  - (* TrimClick *)
    destruct (mounted s) eqn:Hm; [| exact Hs]. simpl.
    destruct (ffmpegReady (ui s)) eqn:Hr; [| exact Hs].
    unfold trimVideo. rewrite Hr. unfold mounted in Hm.
    destruct (videoSrc (ui s)) eqn:Hv; [| discriminate].
    destruct Hs as [H1 H2 H3 H4 H5 H6]; constructor; simpl; auto.
    + intros; unfold mounted; simpl; rewrite ?Hv, ?Hr; auto.
    + intros j Hj. apply lookup_insert_is_Some in Hj as [<- | [_ Hj]]; [lia |].
      apply H6 in Hj. lia.
  - (* FrameClick *)
    destruct (mounted s) eqn:Hm; [| exact Hs].
    destruct (frames (ui s) !! index); [| exact Hs].
    unfold onTimelineClick, videoRef, assign_currentTime. rewrite Hm.
    destruct (isFinite (time f)); [| exact Hs]. inv_simple Hs.
  - destruct (loading (ffmpeg s)); [| exact Hs]. inv_simple Hs.
    intros j job H. split; [reflexivity | eapply H5; eauto].
  - destruct (loading (ffmpeg s)); [| exact Hs]. inv_simple Hs.
  - inv_simple Hs.
  - (* FetchResolved *)
    unfold trim_fetched.
    destruct (jobs s !! job) as [jb |] eqn:Hj; [| exact Hs].
    destruct (job_stage jb); [| exact Hs].
    destruct (blobs (dom s) !! job_src jb); inv_job Hs Hj.
  - (* FetchRejected *)
    unfold trim_fetch_failed.
    destruct (jobs s !! job) as [jb |] eqn:Hj; [| exact Hs].
    destruct (job_stage jb); [| exact Hs].
    inv_job Hs Hj.
  - (* RunResolved *)
    unfold trim_ran.
    destruct (jobs s !! job) as [jb |] eqn:Hj; [| exact Hs].
    destruct (job_stage jb); [exact Hs |].
    unfold FS_readFile.
    destruct (FS (ffmpeg s) !! "output.mp4"); inv_job Hs Hj.
  - (* RunRejected *)
    unfold trim_run_failed.
    destruct (jobs s !! job) as [jb |] eqn:Hj; [| exact Hs].
    destruct (job_stage jb); [exact Hs |].
    inv_job Hs Hj.
  - inv_simple Hs.
  - (* LoadedMetadata *)
    destruct (mounted s) eqn:Hm; [| exact Hs].
    unfold captureFrames, videoRef.
    change (mounted (set_video ?v s)) with (mounted s). rewrite Hm.
    change (context2d (dom (set_video ?v s))) with (context2d (dom s)).
    destruct (context2d (dom s)).
    2:{ inv_simple Hs. }
    match goal with |- invariant (sampler_loop ?r ?st) =>
      assert (Hst : invariant st) by (inv_simple Hs);
      apply (sampler_frame_invariant st); [exact Hst | apply sampler_loop_frame |]
    end.
    apply sampler_loop_inv; [exact Hm | |].
    + split; [| split]; cbn [i interval thumbnails].
      * lia.
      * constructor.
      * reflexivity.
    + destruct Hs as [H1 H2 H3 H4 H5 H6]. repeat split; simpl; auto.
  - (* Seeked *)
    destruct (mounted s) eqn:Hm; [| exact Hs].
    unfold dispatch_seeked.
    match goal with |- invariant (run_handlers ?rs ?st) =>
      assert (Hst : invariant st) by (inv_simple Hs);
      apply (sampler_frame_invariant st); [exact Hst | apply run_handlers_frame |]
    end.
    apply run_handlers_inv; [exact Hm | apply (inv_seeked _ Hs) |].
    destruct Hs as [H1 H2 H3 H4 H5 H6]. repeat split; simpl; auto.
  - exact Hs.
  - destruct (mounted s) eqn:Hm; [| exact Hs].
    unfold updateCursor. simpl. destruct (negb p && negb e); inv_simple Hs.
  - destruct (mounted s) eqn:Hm; [| exact Hs]. inv_simple Hs.
  - inv_simple Hs.
Qed.

Lemma reachable_invariant s : reachable s -> invariant s.
Proof.
  induction 1 as [ctx w | ev s _ IH]; [apply init_invariant | now apply step_invariant].
Qed.

Lemma reachable_run_events evs s : reachable s -> reachable (run_events evs s).
Proof.
  revert s. induction evs as [| ev evs IH]; intros s Hs; [exact Hs |].
  simpl. apply IH. now constructor.
Qed.

(** ** The frame sampler *)

Lemma run_handlers_app (a b : list Sampler) s :
  run_handlers (a ++ b) s = run_handlers b (run_handlers a s).
Proof. apply fold_left_app. Qed.

Lemma seeked_handler_next (q : Q) (k : nat) (thumbs : list Frame) (s : State) :
  (k < frameCount)%nat ->
  seeked_handler {| interval := Num q; i := k; thumbnails := thumbs |} s =
  set_seeked
    (seeked (dom s) ++
       [{| interval := Num q; i := S k;
           thumbnails := thumbs ++ [{| time := sample_time (Num q) k; image := capture s |}] |}])
    (snd (assign_currentTime (sample_time (Num q) (S k)) s)).
Proof.
  intros Hk. unfold seeked_handler, sampler_loop. cbn [i interval thumbnails].
  destruct (Nat.leb_spec (S k) frameCount) as [_ | Hgt]; [| lia].
  reflexivity.
Qed.

Lemma seeked_handler_last (q : Q) (thumbs : list Frame) (s : State) :
  seeked_handler {| interval := Num q; i := frameCount; thumbnails := thumbs |} s =
  setFrames (thumbs ++ [{| time := sample_time (Num q) frameCount; image := capture s |}]) s.
Proof. reflexivity. Qed.

Lemma seeked_advances (q : Q) (k : nat) (s : State) :
  (k < frameCount)%nat -> sampling_at q k s -> sampling_at q (S k) (step Seeked s).
Proof.
  intros Hk (Hm & old & thumbs & Hq & Ht).
  simpl. rewrite Hm. unfold dispatch_seeked.
  match goal with |- sampling_at _ _ (run_handlers ?rs ?st) =>
    change rs with (seeked (dom s)); set (s0 := st) end.
  rewrite Hq, run_handlers_app. simpl run_handlers at 1.
  pose proof (run_handlers_frame old s0) as Hfr.
  set (s1 := run_handlers old s0) in *.
  rewrite seeked_handler_next by exact Hk.
  split.
  - rewrite <- Hm. unfold mounted. simpl.
    destruct Hfr as (-> & _). reflexivity.
  - eexists _, _. split; [reflexivity |].
    rewrite map_app, seq_S, map_app, Ht. reflexivity.
Qed.

Lemma seeked_iterates (q : Q) (n : nat) :
  forall k s, (k + n <= frameCount)%nat -> sampling_at q k s ->
    sampling_at q (k + n) (run_events (repeat Seeked n) s).
Proof.
  induction n as [| n IH]; intros k s Hk Hs.
  - rewrite Nat.add_0_r. exact Hs.
  - simpl. replace (k + S n)%nat with (S k + n)%nat by lia.
    apply IH; [lia |]. apply seeked_advances; [lia | exact Hs].
Qed.

Lemma seeked_publishes (q : Q) (s : State) :
  sampling_at q frameCount s ->
  map time (frames (ui (step Seeked s))) = strip_times (Num q).
Proof.
  intros (Hm & old & thumbs & Hq & Ht).
  simpl. rewrite Hm. unfold dispatch_seeked.
  match goal with |- context [run_handlers ?rs ?st] =>
    change rs with (seeked (dom s)); set (s0 := st) end.
  rewrite Hq, run_handlers_app. simpl run_handlers at 1.
  rewrite seeked_handler_last. simpl frames. 
  unfold strip_times. rewrite map_app, seq_S, map_app, Ht. reflexivity.
Qed.

Lemma loadedmetadata_starts (D : Q) (s : State) :
  mounted s = true -> context2d (dom s) = true ->
  sampling_at (D / inject_Z 10) 0 (step (LoadedMetadata (Num D)) s).
Proof.
  intros Hm Hc. simpl. rewrite Hm. unfold captureFrames, videoRef.
  change (mounted (set_video ?v s)) with (mounted s). rewrite Hm.
  change (context2d (dom (set_video ?v s))) with (context2d (dom s)). rewrite Hc.
  split; [exact Hm |].
  exists (seeked (dom s)), []. split; reflexivity.
Qed.

Lemma strip_times_nondecreasing (q : Q) :
  (0 <= q)%Q -> nondecreasing (strip_times (Num q)).
Proof.
  intros Hq a b x y Hab Ha Hb. unfold strip_times in *.
  rewrite list_lookup_fmap in Ha, Hb.
  destruct (seq 0 (S frameCount) !! a) as [a' |] eqn:Ea; [| discriminate].
  destruct (seq 0 (S frameCount) !! b) as [b' |] eqn:Eb; [| discriminate].
  apply lookup_seq in Ea as [-> _]. apply lookup_seq in Eb as [-> _].
  simpl in Ha, Hb. injection Ha as <-. injection Hb as <-.
  rewrite !sample_time_Num. apply le_Num.
  assert (H : (inject_Z (Z.of_nat a) <= inject_Z (Z.of_nat b))%Q).
  { rewrite <- Zle_Qle. lia. }
  nra.
Qed.

(** C1.  Once the metadata of a mounted resource announce a duration [D],
    with a 2d context at hand, eleven settled seeks later [captureFrames]
    has published exactly [frameCount + 1 = 11] frames; their times are
    [i * (D / 10)] for [i = 0..10] in that order, and they never decrease. *)
Theorem captureFrames_samples_whole_duration (s : State) (D : Q) :
  mounted s = true ->
  context2d (dom s) = true ->
  (0 <= D)%Q ->
  let s' := run_events (LoadedMetadata (Num D) :: repeat Seeked (S frameCount)) s in
  length (frames (ui s')) = S frameCount /\
  map time (frames (ui s')) =
    map (fun k => mul (of_nat k) (div (Num D) (of_nat frameCount))) (seq 0 (S frameCount)) /\
  nondecreasing (map time (frames (ui s'))).
Proof.
  intros Hm Hc HD s'.
  assert (Ht : map time (frames (ui s')) = strip_times (Num (D / inject_Z 10))).
  { subst s'. 
    change (LoadedMetadata (Num D) :: repeat Seeked (S frameCount))
      with ([LoadedMetadata (Num D)] ++ repeat Seeked frameCount ++ [Seeked])%list.
    unfold run_events. rewrite !fold_left_app. 
    apply seeked_publishes.
    apply (seeked_iterates _ frameCount 0); [lia |].
    now apply loadedmetadata_starts. }
  split; [| split].
  - rewrite <- (length_map time), Ht. reflexivity.
  - rewrite Ht. reflexivity.
  - rewrite Ht. apply strip_times_nondecreasing.
    apply Qle_shift_div_l; [reflexivity | lra].
Qed.

Lemma captureFrames_samples_whole_duration_witness :
  let s' := run_events (LoadedMetadata (Num 20) :: repeat Seeked (S frameCount))
              session_chosen in
  length (frames (ui s')) = S frameCount /\
  map time (frames (ui s')) =
    map (fun k => mul (of_nat k) (div (Num 20) (of_nat frameCount)))
      (seq 0 (S frameCount)) /\
  nondecreasing (map time (frames (ui s'))).
Proof.
  apply (captureFrames_samples_whole_duration session_chosen 20);
    [reflexivity | reflexivity | lra].
Defined.

(** ** The cursor *)

(** C2.  With the playback time [t] in [[0, d]], for every duration [d] and
    every track width [w >= 0], [getCursorPosition] returns an offset in
    [[0, w]]; when the duration is zero it returns [0], the value of the
    guard's branch, and no quotient is formed. *)
Theorem getCursorPosition_in_track (s : State) (t : Q) (d : number) (w : Z) :
  cursorTime (ui s) = Num t ->
  duration (video (dom s)) = d ->
  clientWidth (dom s) = w ->
  le (Num 0) (Num t) = true ->
  le (Num t) d = true ->
  (0 <= w)%Z ->
  le (Num 0) (getCursorPosition s) = true /\
  le (getCursorPosition s) (of_Z w) = true /\
  (strict_eq d (Num 0) = true -> getCursorPosition s = Num 0).
Proof.
  intros Hc Hd Hw H0t Htd H0w.
  apply le_Num in H0t. apply inject_Z_nonneg in H0w.
  unfold getCursorPosition, videoRef, timelineRef.
  destruct (mounted s).
  2:{ split; [reflexivity | split; [now apply le_Num | reflexivity]]. }
  rewrite Hc, Hd, Hw. clear Hc Hd Hw.
  destruct d as [d | | |]; try discriminate.
  - apply le_Num in Htd. simpl strict_eq.
    destruct (Qeq_bool d 0) eqn:Ez.
    + split; [reflexivity | split; [now apply le_Num | reflexivity]].
    + assert (Hpos : (0 < d)%Q).
      { destruct (Qlt_le_dec 0 d) as [|Hle]; [assumption|].
        assert (Hz : (d == 0)%Q) by lra.
        apply Qeq_bool_iff in Hz. congruence. }
      destruct (ratio_bounds t d H0t Htd Hpos) as [Hr0 Hr1].
      unfold div. rewrite (sign_Gt d Hpos). unfold of_Z. simpl mul.
      split; [| split; [| discriminate]].
      * destruct (Math_min_Num (t / d * inject_Z w) (inject_Z w)) as [[-> _] | [-> _]];
          apply le_Num; [nra | lra].
      * destruct (Math_min_Num (t / d * inject_Z w) (inject_Z w)) as [[-> Hm] | [-> _]];
          apply le_Num; lra.
  - change (strict_eq PosInf (Num 0)) with false. cbv iota.
    change (div (Num t) PosInf) with (Num 0). unfold of_Z.
    change (mul (Num 0) (Num (inject_Z w))) with (Num (0 * inject_Z w)).
    split; [| split; [| discriminate]].
    + destruct (Math_min_Num (0 * inject_Z w) (inject_Z w)) as [[-> _] | [-> _]];
        apply le_Num; lra.
    + destruct (Math_min_Num (0 * inject_Z w) (inject_Z w)) as [[-> Hm] | [-> _]];
        apply le_Num; lra.
Qed.

Lemma getCursorPosition_in_track_witness :
  le (Num 0) (getCursorPosition session_playing) = true /\
  le (getCursorPosition session_playing) (of_Z 600) = true /\
  (strict_eq (Num 20) (Num 0) = true -> getCursorPosition session_playing = Num 0).
Proof.
  apply (getCursorPosition_in_track session_playing 5 (Num 20) 600);
    try reflexivity.
  lia.
Defined.

(** ** The readiness gate *)

(** C4.  While [ffmpegReady] is false, [trimVideo] returns the state it was
    given: no call reaches the engine, no pending call is created, and
    neither the error nor the progress value is touched.  The click on the
    trim button does the same. *)
Theorem trimVideo_not_ready (s : State) :
  ffmpegReady (ui s) = false ->
  trimVideo s = s /\ step TrimClick s = s.
Proof.
  intros H. unfold step, trimVideo. rewrite H.
  rewrite andb_false_r. split; reflexivity.
Qed.

Lemma trimVideo_not_ready_witness :
  trimVideo session_sampled = session_sampled /\
  step TrimClick session_sampled = session_sampled.
Proof. apply (trimVideo_not_ready session_sampled). reflexivity. Defined.

(** ** Loading a resource *)

(** C5.  Whatever the state before, [handleFileChange] with a file present
    points [videoSrc] at the new resource, empties the frame sequence, puts
    the cursor at [0] and resets the trimmed artifact, the trim start, the
    trim duration (to its initial 5), the error and the progress. *)
Theorem handleFileChange_resets (s : State) (file : Blob) :
  let s' := handleFileChange (Some file) s in
  videoSrc (ui s') = Some (length (blobs (dom s))) /\
  blobs (dom s') !! length (blobs (dom s)) = Some file /\
  frames (ui s') = [] /\
  cursorTime (ui s') = Num 0 /\
  trimmedSrc (ui s') = None /\
  trimStart (ui s') = Num 0 /\
  trimDuration (ui s') = Num 5 /\
  error (ui s') = None /\
  processingProgress (ui s') = Num 0 /\
  ui (step (FileChange (Some file)) s) = ui s'.
Proof.
  simpl. repeat split.
  now rewrite lookup_app_r, Nat.sub_diag.
Qed.

(** ** Sessions that are reachable *)

Ltac reach :=
  repeat lazymatch goal with
         | |- reachable (init _ _) => apply reachable_init
         | |- reachable (run_events _ _) => apply reachable_run_events
         | |- reachable (step _ _) => apply reachable_step
         end.

Lemma reachable_session_sampling : reachable session_sampling.
Proof. unfold session_sampling, session_loaded, session_chosen. reach. Qed.

Lemma reachable_session_trimming : reachable session_trimming.
Proof.
  unfold session_trimming, session_ready, session_sampled, session_loaded,
    session_chosen. reach.
Qed.

Lemma reachable_session_retrimming : reachable session_retrimming.
Proof. unfold session_retrimming. apply reachable_run_events. exact reachable_session_trimming. Qed.

Lemma reachable_session_sampled : reachable session_sampled.
Proof. unfold session_sampled, session_loaded, session_chosen. reach. Qed.

(** ** The trim job *)

(** The two numeric inputs touch nothing but their own cells. *)
Lemma edit_frame ev s :
  is_edit ev ->
  jobs (step ev s) = jobs s /\ dom (step ev s) = dom s /\
  ffmpeg (step ev s) = ffmpeg s /\ next_job (step ev s) = next_job s.
Proof.
  destruct ev; simpl; try contradiction; intros _; destruct (mounted s); auto.
Qed.

Lemma edits_frame evs s :
  Forall is_edit evs ->
  jobs (run_events evs s) = jobs s /\ dom (run_events evs s) = dom s /\
  ffmpeg (run_events evs s) = ffmpeg s /\ next_job (run_events evs s) = next_job s.
Proof.
  revert s. induction evs as [| ev evs IH]; intros s H; [auto |].
  inversion H; subst. simpl.
  destruct (IH (step ev s)) as (-> & -> & -> & ->); [assumption |].
  now apply edit_frame.
Qed.

(** C6.  A submitted trim drives the engine with the snapshot taken at the
    click: whatever the two inputs are changed to while [fetchFile] is
    pending, once it resolves the component writes the source's bytes to
    [input.mp4] and calls [ffmpeg.run] with [-ss start -i input.mp4
    -t duration -c copy output.mp4], that is: seek to [start], read
    [duration] seconds, copy the streams, write a new container. *)
Theorem trimVideo_runs_stream_copy
    (s : State) (src : Url) (file : Blob) (edits : list Event) :
  ffmpegReady (ui s) = true ->
  videoSrc (ui s) = Some src ->
  blobs (dom s) !! src = Some file ->
  Forall is_edit edits ->
  let j := next_job s in
  let s' := step (FetchResolved j) (run_events edits (step TrimClick s)) in
  calls (ffmpeg s') =
    (calls (ffmpeg s) ++
      [CallWriteFile "input.mp4" (blob_data file);
       CallRun [Str "-ss"; NumStr (trimStart (ui s)); Str "-i"; Str "input.mp4";
                Str "-t"; NumStr (trimDuration (ui s)); Str "-c"; Str "copy";
                Str "output.mp4"]])%list /\
  running s' j.
Proof.
  intros Hr Hv Hb He j s'. subst s'.
  destruct (edits_frame edits (step TrimClick s) He) as (Ej & Ed & Ef & En).
  set (s1 := run_events edits (step TrimClick s)) in *.
  assert (Hj : jobs s1 !! j =
                 Some {| job_src := src; job_start := trimStart (ui s);
                         job_duration := trimDuration (ui s);
                         job_stage := AwaitFetch |}).
  { rewrite Ej. simpl. unfold mounted, trimVideo. rewrite Hv, Hr. simpl.
    apply lookup_insert_eq. }
  assert (Hb1 : blobs (dom s1) !! src = Some file).
  { rewrite Ed. simpl. unfold mounted, trimVideo. rewrite Hv, Hr. exact Hb. }
  assert (Hc1 : calls (ffmpeg s1) = calls (ffmpeg s)).
  { rewrite Ef. simpl. unfold mounted, trimVideo. rewrite Hv, Hr. reflexivity. }
  simpl. unfold trim_fetched. rewrite Hj. simpl. rewrite Hb1. simpl.
  split.
  - rewrite Hc1, <- app_assoc. reflexivity.
  - eexists. split; [apply lookup_insert_eq | reflexivity].
Qed.

Lemma trimVideo_runs_stream_copy_witness :
  let s' := step (FetchResolved 0)
              (run_events [TrimStartChange (Num 7)] (step TrimClick session_ready)) in
  calls (ffmpeg s') =
    (calls (ffmpeg session_ready) ++
      [CallWriteFile "input.mp4" (blob_data sample_file);
       CallRun [Str "-ss"; NumStr (Num 2); Str "-i"; Str "input.mp4";
                Str "-t"; NumStr (Num 5); Str "-c"; Str "copy";
                Str "output.mp4"]])%list /\
  running s' 0.
Proof.
  apply (trimVideo_runs_stream_copy session_ready 0 sample_file
           [TrimStartChange (Num 7)]); try reflexivity.
  repeat constructor.
Defined.




(** C8, as stated, fails: with one trim awaiting the engine, a second click
    is not rejected; the state changes, and once its fetch resolves two
    calls of [ffmpeg.run] are in flight at once. *)
Lemma second_submit_starts_overlapping_run :
  reachable session_trimming /\
  running session_trimming 0 /\
  ~ (step TrimClick session_trimming = session_trimming) /\
  let s' := run_events [TrimClick; FetchResolved 1] session_trimming in
  running s' 0 /\ running s' 1 /\
  runs (calls (ffmpeg s')) = [trim_args (Num 2) (Num 5); trim_args (Num 2) (Num 5)].
Proof.
  split; [exact reachable_session_trimming |].
  split; [eexists; split; [vm_compute; reflexivity | reflexivity] |].
  split.
  - intros H. apply (f_equal next_job) in H. vm_compute in H. discriminate.
  - split; [| split].
    + eexists; split; [vm_compute; reflexivity | reflexivity].
    + eexists; split; [vm_compute; reflexivity | reflexivity].
    + vm_compute. reflexivity.
Qed.

(** C8, amended.  With the engine ready and a source loaded, a click on
    the trim button is accepted whether or not a trim is running: it
    registers a fresh pending call with the current snapshot and leaves
    every running call in flight.  The only gate is readiness and the
    presence of a source. *)
Theorem trimVideo_accepts_while_running (s : State) (src : Url) :
  reachable s ->
  ffmpegReady (ui s) = true ->
  videoSrc (ui s) = Some src ->
  let s' := step TrimClick s in
  jobs s' !! next_job s =
    Some {| job_src := src; job_start := trimStart (ui s);
            job_duration := trimDuration (ui s); job_stage := AwaitFetch |} /\
  jobs s !! next_job s = None /\
  (forall j, running s j -> running s' j) /\
  calls (ffmpeg s') = calls (ffmpeg s).
Proof.
  intros Hs Hr Hv s'. subst s'.
  pose proof (inv_jobs_fresh _ (reachable_invariant s Hs)) as Hfresh.
  assert (Hnone : jobs s !! next_job s = None).
  { destruct (jobs s !! next_job s) eqn:E; [| reflexivity].
    assert (next_job s < next_job s)%nat by (apply Hfresh; rewrite E; eauto). lia. }
  simpl. unfold mounted, trimVideo. rewrite Hv, Hr. simpl.
  split; [apply lookup_insert_eq |].
  split; [exact Hnone |].
  split; [| reflexivity].
  intros j (job & Hj & Hst). exists job. split; [| exact Hst].
  cbn. rewrite lookup_insert_ne; [exact Hj |].
  intros <-. congruence.
Qed.

Lemma trimVideo_accepts_while_running_witness :
  let s' := step TrimClick session_trimming in
  jobs s' !! next_job session_trimming =
    Some {| job_src := 0%nat; job_start := trimStart (ui session_trimming);
            job_duration := trimDuration (ui session_trimming);
            job_stage := AwaitFetch |} /\
  jobs session_trimming !! next_job session_trimming = None /\
  (forall j, running session_trimming j -> running s' j) /\
  calls (ffmpeg s') = calls (ffmpeg session_trimming).
Proof.
  apply (trimVideo_accepts_while_running session_trimming 0).
  - exact reachable_session_trimming.
  - reflexivity.
  - reflexivity.
Defined.

(** C10.  An accepted submission first clears the error and puts the
    progress back to [0], without touching [trimmedSrc]; and whichever way
    a pending trim fails, the error is set while [trimmedSrc] is left as it
    was: the artifact of an earlier success stays exposed beside the new
    error. *)
Theorem trim_failure_keeps_old_artifact (s : State) (j : nat) (ev : Event) :
  (ffmpegReady (ui s) = true -> mounted s = true ->
   let s' := step TrimClick s in
   error (ui s') = None /\
   processingProgress (ui s') = Num 0 /\
   trimmedSrc (ui s') = trimmedSrc (ui s)) /\
  (trim_fails s j ev ->
   let s' := step ev s in
   error (ui s') = Some msg_trim_failed /\
   trimmedSrc (ui s') = trimmedSrc (ui s) /\
   jobs s' !! j = None).
Proof.
  split.
  - intros Hr Hm. simpl. rewrite Hm, Hr. simpl. unfold trimVideo. rewrite Hr.
    unfold mounted in Hm. destruct (videoSrc (ui s)); [| discriminate].
    simpl. auto.
  - intros Hf. destruct Hf as [job Hj Hst | job Hj Hst | job Hj Hst Hout]; simpl.
    + unfold trim_fetch_failed. rewrite Hj, Hst. simpl.
      repeat split. apply lookup_delete_eq.
    + unfold trim_run_failed. rewrite Hj, Hst. simpl.
      repeat split. apply lookup_delete_eq.
    + unfold trim_ran, FS_readFile. rewrite Hj, Hst, Hout. simpl.
      repeat split. apply lookup_delete_eq.
Qed.

Lemma trim_failure_keeps_old_artifact_witness :
  let s' := step (RunRejected 1) session_retrimming in
  trimmedSrc (ui session_retrimming) = Some 1%nat /\
  error (ui session_retrimming) = None /\
  error (ui s') = Some msg_trim_failed /\
  trimmedSrc (ui s') = Some 1%nat.
Proof.
  pose proof (trim_failure_keeps_old_artifact session_retrimming 1 (RunRejected 1)) as [_ H].
  destruct H as (He & Ht & _).
  - eapply fails_run; [vm_compute; reflexivity | reflexivity].
  - split; [vm_compute; reflexivity |].
    split; [vm_compute; reflexivity |].
    split; [exact He |].
    rewrite Ht. vm_compute. reflexivity.
Defined.

(** ** Clicking the strip *)

(** C9.  A click on a frame of the strip assigns exactly that frame's
    recorded [time] to [video.currentTime]; the event carries the frame,
    not a pixel position. *)
Theorem frame_click_seeks_to_frame_time (s : State) (k : nat) (frame : Frame) :
  reachable s ->
  frames (ui s) !! k = Some frame ->
  currentTime (video (dom (step (FrameClick k) s))) = time frame.
Proof.
  intros Hs Hk. pose proof (reachable_invariant s Hs) as Hinv.
  assert (Hm : mounted s = true).
  { apply (inv_frames_mounted _ Hinv). intros E. rewrite E in Hk. discriminate. }
  assert (Hf : isFinite (time frame) = true).
  { pose proof (inv_finite _ Hinv) as Hfin. unfold finite_times in Hfin.
    rewrite Forall_lookup in Hfin. apply (Hfin k frame Hk). }
  simpl. rewrite Hm, Hk. unfold onTimelineClick, videoRef, assign_currentTime.
  rewrite Hm, Hf. reflexivity.
Qed.

Lemma frame_click_seeks_to_frame_time_witness :
  currentTime (video (dom (step (FrameClick 3) session_sampled))) = Num (inject_Z 3 * (20 / inject_Z 10)).
Proof.
  apply (frame_click_seeks_to_frame_time session_sampled 3
           {| time := Num (inject_Z 3 * (20 / inject_Z 10));
              image := {| pic_src := Some 0%nat; pic_at := Num (inject_Z 3 * (20 / inject_Z 10)) |} |}).
  - exact reachable_session_sampled.
  - reflexivity.
Defined.

(** ** A seek that fails *)

(** C3, as stated, fails: after three samples a seek fails; the pending
    call is still registered and no error is set, so the run is neither
    aborted nor is anybody notified. *)
Lemma seek_failure_neither_aborts_nor_notifies :
  reachable session_sampling /\
  (exists r, seeked (dom session_sampling) = [r] /\ i r = 3%nat) /\
  let s' := step SeekFailed session_sampling in
  ~ (frames (ui s') = [] /\ seeked (dom s') = [] /\ error (ui s') <> None).
Proof.
  split; [exact reachable_session_sampling |].
  split; [eexists; split; [vm_compute; reflexivity | reflexivity] |].
  intros s' (_ & H & _). vm_compute in H. discriminate.
Qed.

(** C3, amended.  A failed seek publishes nothing: the frame sequence is
    what it was, and in every reachable state it is empty or a complete
    strip of [frameCount + 1] frames, never a partial one.  The pending
    call stays registered and the error value is unchanged. *)
Theorem seek_failure_publishes_nothing (s : State) :
  reachable s ->
  let s' := step SeekFailed s in
  frames (ui s') = frames (ui s) /\
  (frames (ui s') = [] \/ length (frames (ui s')) = S frameCount) /\
  seeked (dom s') = seeked (dom s) /\
  error (ui s') = error (ui s).
Proof.
  intros Hs s'. subst s'. simpl. repeat split.
  destruct (inv_strip _ (reachable_invariant s Hs)) as [E | [iv E]]; [now left |].
  right. rewrite <- (length_map time), E. reflexivity.
Qed.

Lemma seek_failure_publishes_nothing_witness :
  let s' := step SeekFailed session_sampling in
  frames (ui s') = frames (ui session_sampling) /\
  (frames (ui s') = [] \/ length (frames (ui s')) = S frameCount) /\
  seeked (dom s') = seeked (dom session_sampling) /\
  error (ui s') = error (ui session_sampling).
Proof.
  apply (seek_failure_publishes_nothing session_sampling).
  exact reachable_session_sampling.
Defined.

(** * Further properties *)

(** ** Object URLs and the engine's log *)

Lemma sampler_loop_frame_dom r s : sampler_frame_dom s (sampler_loop r s).
Proof.
  destruct (sampler_loop_cases r s) as [(_ & E & ->) | [(_ & _ & ->) | (_ & ->)]];
    unfold sampler_frame_dom, assign_currentTime; try rewrite E; simpl; auto 10.
Qed.

Lemma run_handlers_frame_dom rs s : sampler_frame_dom s (run_handlers rs s).
Proof.
  revert s. induction rs as [| r rs IH]; intros s.
  - unfold sampler_frame_dom. auto 10.
  - simpl. specialize (IH (seeked_handler r s)).
    pose proof (sampler_loop_frame_dom
      {| interval := interval r; i := S (i r);
         thumbnails := thumbnails r ++ [{| time := sample_time (interval r) (i r); image := capture s |}] |} s) as H.
    unfold sampler_frame_dom in *. fold (seeked_handler r s) in H.
    intuition congruence.
Qed.

Lemma sampler_store_invariant s s' :
  store_invariant s -> sampler_frame s s' -> sampler_frame_dom s s' ->
  store_invariant s'.
Proof.
  intros [H1 H2 H3 H4 H5 H6] (Ev & Et & Er & _ & Ej & Ef & _) (Eb & _).
  constructor; rewrite ?Ev, ?Et, ?Er, ?Ej, ?Ef, ?Eb; assumption.
Qed.

Lemma init_store_invariant ctx w : store_invariant (init ctx w).
Proof.
  constructor; simpl; try discriminate; auto.
  exists []. auto.
Qed.

Lemma lookup_lt_length {A} (l : list A) (k : nat) :
  (k < length l)%nat -> exists x, l !! k = Some x.
Proof. intros H. apply lookup_lt_is_Some_2 in H. destruct H as [x H]. eauto. Qed.

Ltac sto_simple Hs :=
  destruct Hs as [H1 H2 H3 H4 H5 H6]; constructor; simpl; auto.

Lemma step_store_invariant ev s :
  invariant s -> store_invariant s -> store_invariant (step ev s).
Proof.
  intros Hinv Hs. destruct ev; simpl.
  - (* FileChange *)
    destruct file as [f |]; [| exact Hs].
    destruct Hs as [H1 H2 H3 H4 H5 H6]; constructor; simpl; auto.
    + intros v [= <-]. rewrite length_app. simpl. lia.
    + discriminate.
    + intros j job H. rewrite length_app. apply H3 in H. lia.
  - destruct (mounted s); [| exact Hs]. sto_simple Hs.
  - destruct (mounted s); [| exact Hs]. sto_simple Hs.
  - (* TrimClick *)
    destruct (mounted s) eqn:Hm; [| exact Hs]. simpl.
    destruct (ffmpegReady (ui s)) eqn:Hr; [| exact Hs].
    unfold trimVideo. rewrite Hr. unfold mounted in Hm.
    destruct (videoSrc (ui s)) eqn:Hv; [| discriminate].
    destruct Hs as [H1 H2 H3 H4 H5 H6]; constructor; simpl; auto.
    intros j job Hj. apply lookup_insert_Some in Hj as [[_ <-] | [_ Hj]]; simpl; eauto.
  - (* FrameClick *)
    destruct (mounted s) eqn:Hm; [| exact Hs].
    destruct (frames (ui s) !! index); [| exact Hs].
    unfold onTimelineClick, videoRef, assign_currentTime. rewrite Hm.
    destruct (isFinite (time f)); [| exact Hs]. sto_simple Hs.
  - (* FfmpegLoaded *)
    destruct (loading (ffmpeg s)) eqn:Hl; [| exact Hs].
    destruct Hs as [H1 H2 H3 H4 H5 H6]; constructor; simpl; auto; try discriminate.
    destruct H4 as (rest & E & Hf & _). exists rest. repeat split; auto; discriminate.
  - destruct (loading (ffmpeg s)) eqn:Hl; [| exact Hs].
    destruct Hs as [H1 H2 H3 H4 H5 H6]; constructor; simpl; auto.
  - sto_simple Hs.
  - (* FetchResolved *)
    unfold trim_fetched.
    destruct (jobs s !! job) as [jb |] eqn:Hj; [| exact Hs].
    destruct (inv_jobs_gate _ Hinv _ _ Hj) as [Hr _].
    destruct (job_stage jb); [| exact Hs].
    destruct (blobs (dom s) !! job_src jb).
    + destruct Hs as [H1 H2 H3 H4 H5 H6]; constructor; simpl; auto.
      * intros j job' Hj'. apply lookup_insert_Some in Hj' as [[_ <-] | [_ Hj']]; simpl; eauto.
      * destruct H4 as (rest & E & Hf & _).
        eexists. rewrite E. split; [reflexivity |]. split.
        -- repeat (apply Forall_app; split); auto; repeat constructor. simpl. eauto.
        -- rewrite Hr. discriminate.
    + destruct Hs as [H1 H2 H3 H4 H5 H6]; constructor; simpl; auto.
      intros j job' Hj'. apply lookup_delete_Some in Hj' as [_ Hj']. eauto.
  - (* FetchRejected *)
    unfold trim_fetch_failed.
    destruct (jobs s !! job) as [jb |] eqn:Hj; [| exact Hs].
    destruct (job_stage jb); [| exact Hs].
    destruct Hs as [H1 H2 H3 H4 H5 H6]; constructor; simpl; auto.
    intros j job' Hj'. apply lookup_delete_Some in Hj' as [_ Hj']. eauto.
  - (* RunResolved *)
    unfold trim_ran.
    destruct (jobs s !! job) as [jb |] eqn:Hj; [| exact Hs].
    destruct (inv_jobs_gate _ Hinv _ _ Hj) as [Hr _].
    destruct (job_stage jb); [exact Hs |].
    unfold FS_readFile.
    destruct (FS (ffmpeg s) !! "output.mp4") as [data |].
    + destruct Hs as [H1 H2 H3 H4 H5 H6]; constructor; simpl; auto.
      * intros v Hv. rewrite length_app. apply H1 in Hv. lia.
      * intros u [= <-]. split.
        -- intros Hv. apply H1 in Hv. lia.
        -- exists {| blob_data := data; blob_type := "video/mp4" |}.
           split; [| reflexivity].
           rewrite lookup_app_r, Nat.sub_diag; [reflexivity | lia].
      * intros j job' Hj'. apply lookup_delete_Some in Hj' as [_ Hj'].
        rewrite length_app. apply H3 in Hj'. lia.
      * destruct H4 as (rest & E & Hf & _).
        eexists. rewrite E. split; [reflexivity |]. split.
        -- apply Forall_app; split; auto. repeat constructor.
        -- rewrite Hr. discriminate.
      * rewrite Hr. discriminate.
    + destruct Hs as [H1 H2 H3 H4 H5 H6]; constructor; simpl; auto.
      * intros j job' Hj'. apply lookup_delete_Some in Hj' as [_ Hj']. eauto.
      * destruct H4 as (rest & E & Hf & _).
        eexists. rewrite E. split; [reflexivity |]. split.
        -- apply Forall_app; split; auto. repeat constructor.
        -- rewrite Hr. discriminate.
  - (* RunRejected *)
    unfold trim_run_failed.
    destruct (jobs s !! job) as [jb |] eqn:Hj; [| exact Hs].
    destruct (job_stage jb); [exact Hs |].
    destruct Hs as [H1 H2 H3 H4 H5 H6]; constructor; simpl; auto.
    intros j job' Hj'. apply lookup_delete_Some in Hj' as [_ Hj']. eauto.
  - sto_simple Hs.
  - (* LoadedMetadata *)
    destruct (mounted s) eqn:Hm; [| exact Hs].
    unfold captureFrames, videoRef.
    change (mounted (set_video ?v s)) with (mounted s). rewrite Hm.
    change (context2d (dom (set_video ?v s))) with (context2d (dom s)).
    destruct (context2d (dom s)).
    2:{ sto_simple Hs. }
    match goal with |- store_invariant (sampler_loop ?r ?st) =>
      assert (Hst : store_invariant st) by (sto_simple Hs);
      apply (sampler_store_invariant st);
        [exact Hst | apply sampler_loop_frame | apply sampler_loop_frame_dom]
    end.
  - (* Seeked *)
    destruct (mounted s) eqn:Hm; [| exact Hs].
    unfold dispatch_seeked.
    match goal with |- store_invariant (run_handlers ?rs ?st) =>
      assert (Hst : store_invariant st) by (sto_simple Hs);
      apply (sampler_store_invariant st);
        [exact Hst | apply run_handlers_frame | apply run_handlers_frame_dom]
    end.
  - exact Hs.
  - destruct (mounted s) eqn:Hm; [| exact Hs].
    unfold updateCursor. simpl. destruct (negb p && negb e); sto_simple Hs.
  - destruct (mounted s) eqn:Hm; [| exact Hs]. sto_simple Hs.
  - sto_simple Hs.
Qed.

Lemma reachable_store_invariant s : reachable s -> store_invariant s.
Proof.
  induction 1 as [ctx w | ev s Hs IH]; [apply init_store_invariant |].
  apply step_store_invariant; [now apply reachable_invariant | exact IH].
Qed.


(** ** What the engine is asked to do *)

(** In every reachable state the calls made on the engine are: first
    [ffmpeg.setProgress] and [ffmpeg.load()], once each; then only
    [writeFile] of [input.mp4], [run] with the stream-copy trim arguments,
    and [readFile] of [output.mp4], a read that throws included.  As long as
    [ffmpegReady] is false nothing follows the load. *)
Theorem engine_calls_follow_protocol (s : State) :
  reachable s ->
  exists rest,
    calls (ffmpeg s) = CallSetProgress :: CallLoad :: rest /\
    Forall trim_call rest /\
    (ffmpegReady (ui s) = false -> rest = []).
Proof. intros Hs. exact (sto_calls _ (reachable_store_invariant s Hs)). Qed.

Lemma engine_calls_follow_protocol_witness :
  exists rest,
    calls (ffmpeg session_retrimming) = CallSetProgress :: CallLoad :: rest /\
    Forall trim_call rest /\
    (ffmpegReady (ui session_retrimming) = false -> rest = []).
Proof.
  apply (engine_calls_follow_protocol session_retrimming).
  exact reachable_session_retrimming.
Defined.


(** Case analysis on the conditions a handler tests. *)
Ltac handler_cases :=
  unfold trimVideo, trim_fetched, trim_fetch_failed, trim_ran, trim_run_failed,
    trim_catch, FS_readFile, FS_writeFile, onTimelineClick, videoRef,
    assign_currentTime, updateCursor, onEnded, handleFileChange, createObjectURL;
  repeat match goal with
         | |- context [match ?x with _ => _ end] => destruct x eqn:?
         | |- context [if ?x then _ else _] => destruct x eqn:?
         end;
  simpl in *.


Lemma sampler_frames_keep s0 s s' :
  sampling_keeps s0 s -> sampler_frame s s' -> sampler_frame_dom s s' ->
  sampling_keeps s0 s'.
Proof.
  unfold sampling_keeps, sampler_frame, sampler_frame_dom.
  intuition congruence.
Qed.

Lemma sampling_step_keeps ev s :
  match ev with LoadedMetadata _ | Seeked => True | _ => False end ->
  sampling_keeps s (step ev s).
Proof.
  assert (Hrefl : sampling_keeps s s) by (unfold sampling_keeps; auto 20).
  destruct ev; try contradiction; intros _; simpl.
  - destruct (mounted s) eqn:Hm; [| exact Hrefl].
    unfold captureFrames, videoRef.
    change (mounted (set_video ?v s)) with (mounted s). rewrite Hm.
    change (context2d (dom (set_video ?v s))) with (context2d (dom s)).
    destruct (context2d (dom s)); [| exact Hrefl].
    match goal with |- context [sampler_loop ?r ?st] =>
      apply (sampler_frames_keep s st);
        [exact Hrefl | apply sampler_loop_frame | apply sampler_loop_frame_dom]
    end.
  - destruct (mounted s) eqn:Hm; [| exact Hrefl].
    unfold dispatch_seeked.
    match goal with |- context [run_handlers ?rs ?st] =>
      apply (sampler_frames_keep s st);
        [exact Hrefl | apply run_handlers_frame | apply run_handlers_frame_dom]
    end.
Qed.

(** Splits the events into those that run sampler code, for which the
    facts of [sampling_keeps] are put in the context, and the others, whose
    handlers are unfolded. *)
Ltac by_event ev s :=
  destruct ev;
  lazymatch goal with
  | |- context [step (LoadedMetadata ?d) s] =>
      let H := fresh "Hkeep" in
      pose proof (sampling_step_keeps (LoadedMetadata d) s I) as H;
      unfold sampling_keeps in H; decompose [and] H; clear H;
      set (step (LoadedMetadata d) s) in *
  | |- context [step Seeked s] =>
      let H := fresh "Hkeep" in
      pose proof (sampling_step_keeps Seeked s I) as H;
      unfold sampling_keeps in H; decompose [and] H; clear H;
      set (step Seeked s) in *
  | _ => simpl
  end.

Lemma step_keeps_unready ev s :
  ffmpegReady (ui s) = false -> loading (ffmpeg s) = false ->
  ffmpegReady (ui (step ev s)) = false /\ loading (ffmpeg (step ev s)) = false.
Proof.
  intros Hr Hl. by_event ev s; try (split; congruence); handler_cases; auto; congruence.
Qed.

(** Once [ffmpeg.load()] has been rejected, no sequence of events makes
    the engine ready: nothing but the initial [setProgress] and [load] is
    ever called on it, no trim is ever pending and no artifact is ever
    exposed.  The component has no
    retry. *)
Theorem failed_load_is_final (s : State) (evs : list Event) :
  reachable s ->
  ffmpegReady (ui s) = false ->
  loading (ffmpeg s) = false ->
  let s' := run_events evs s in
  ffmpegReady (ui s') = false /\
  calls (ffmpeg s') = [CallSetProgress; CallLoad] /\
  jobs s' = ∅ /\
  trimmedSrc (ui s') = None.
Proof.
  intros Hs Hr Hl s'.
  assert (Hun : ffmpegReady (ui s') = false /\ loading (ffmpeg s') = false).
  { subst s'. clear Hs. revert s Hr Hl.
    induction evs as [| ev evs IH]; intros s Hr Hl; [auto |].
    simpl. destruct (step_keeps_unready ev s Hr Hl). now apply IH. }
  destruct Hun as [Hr' _].
  assert (Hs' : reachable s') by now apply reachable_run_events.
  pose proof (reachable_store_invariant s' Hs') as Hsto.
  pose proof (reachable_invariant s' Hs') as Hinv.
  split; [exact Hr' |]. split; [| split].
  - destruct (sto_calls _ Hsto) as (rest & E & _ & Hrest).
    rewrite E, (Hrest Hr'). reflexivity.
  - apply map_empty. intros j. destruct (jobs s' !! j) as [job |] eqn:E; [| reflexivity].
    destruct (inv_jobs_gate _ Hinv j job E) as [Hready _]. congruence.
  - now apply (sto_gate _ Hsto).
Qed.

Lemma reachable_session_dead : reachable session_dead.
Proof. unfold session_dead. reach. Qed.

Lemma failed_load_is_final_witness :
  let s' := run_events [TrimClick; FfmpegLoaded; TrimClick] session_dead in
  ffmpegReady (ui s') = false /\
  calls (ffmpeg s') = [CallSetProgress; CallLoad] /\
  jobs s' = ∅ /\
  trimmedSrc (ui s') = None.
Proof.
  apply (failed_load_is_final session_dead [TrimClick; FfmpegLoaded; TrimClick]).
  - exact reachable_session_dead.
  - reflexivity.
  - reflexivity.
Defined.

Lemma step_keeps_ready ev s :
  (ffmpegReady (ui s) = true -> ffmpegReady (ui (step ev s)) = true) /\
  (mounted s = true -> mounted (step ev s) = true).
Proof.
  unfold mounted.
  by_event ev s; try (split; congruence); handler_cases; split; auto; congruence.
Qed.

(** No handler sets [ffmpegReady] back to false, and none sets [videoSrc]
    back to null: once ready, always ready; once a video is mounted, one
    stays mounted. *)
Theorem readiness_and_source_persist (s : State) (evs : list Event) :
  (ffmpegReady (ui s) = true -> ffmpegReady (ui (run_events evs s)) = true) /\
  (mounted s = true -> mounted (run_events evs s) = true).
Proof.
  revert s. induction evs as [| ev evs IH]; intros s; [auto |].
  simpl. destruct (step_keeps_ready ev s) as [H1 H2].
  destruct (IH (step ev s)) as [H3 H4]. auto.
Qed.

(** ** The cursor, further *)

(** [cursorTime] moves only when a file is chosen, when the position
    advances while playing (neither paused nor ended), and when playback
    ends.  In particular a click on a thumbnail, a settled seek and a
    [timeupdate] while paused leave the cursor where it was. *)
Theorem cursor_moves_only_by_playback (ev : Event) (s : State) :
  ~ moves_cursor ev ->
  cursorTime (ui (step ev s)) = cursorTime (ui s).
Proof.
  intros Hev.
  by_event ev s; try congruence; handler_cases; auto; try congruence;
    try (exfalso; apply Hev; exact I).
  destruct p, e; try discriminate. exfalso. apply Hev. exact I.
Qed.

Lemma cursor_moves_only_by_playback_witness :
  cursorTime (ui (step (TimeUpdate (Num 7) true false) session_playing)) =
  cursorTime (ui session_playing).
Proof.
  apply (cursor_moves_only_by_playback (TimeUpdate (Num 7) true false) session_playing).
  simpl. intros H. exact H.
Defined.

(** ** Object URLs, pending trims and their results *)

Lemma step_extends_blobs ev s :
  exists more, blobs (dom (step ev s)) = (blobs (dom s) ++ more)%list.
Proof.
  by_event ev s; [..| exists []; rewrite app_nil_r; congruence
                    | exists []; rewrite app_nil_r; congruence | | | ];
    handler_cases; eauto; try (exists []; now rewrite app_nil_r).
Qed.

(** No handler revokes an object URL: a URL that names a blob names the
    same blob after any sequence of events. *)
Theorem object_urls_are_stable (s : State) (evs : list Event) (u : Url) (b : Blob) :
  blobs (dom s) !! u = Some b ->
  blobs (dom (run_events evs s)) !! u = Some b.
Proof.
  revert s. induction evs as [| ev evs IH]; intros s H; [exact H |].
  simpl. apply IH. destruct (step_extends_blobs ev s) as [more ->].
  now apply lookup_app_l_Some.
Qed.

Lemma object_urls_are_stable_witness :
  blobs (dom (run_events [FileChange (Some sample_file); TrimClick; RunRejected 1]
                session_retrimming)) !! 1%nat =
  Some {| blob_data := [Byte.x02]; blob_type := "video/mp4" |}.
Proof.
  apply (object_urls_are_stable session_retrimming).
  vm_compute. reflexivity.
Defined.

(** A pending [trimVideo] call keeps its snapshot and its stage through
    every event but the settlement of the promise it awaits: neither
    editing the inputs, nor choosing another file, nor another trim
    touches it. *)
Theorem pending_trim_is_isolated (s : State) (j : nat) (job : TrimJob) (ev : Event) :
  reachable s ->
  jobs s !! j = Some job ->
  ~ settles j ev ->
  jobs (step ev s) !! j = Some job.
Proof.
  intros Hs Hj Hev.
  pose proof (inv_jobs_fresh _ (reachable_invariant s Hs) j) as Hfresh.
  assert (Hlt : (j < next_job s)%nat) by (apply Hfresh; rewrite Hj; eauto).
  by_event ev s; try congruence; handler_cases; auto;
    try (rewrite lookup_insert_ne; [assumption | intros <-; first [lia | apply Hev; reflexivity]]);
    try (rewrite lookup_delete_ne; [assumption | intros <-; apply Hev; reflexivity]).
Qed.

Lemma pending_trim_is_isolated_witness :
  jobs (step (FileChange (Some sample_file)) session_trimming) !! 0%nat =
  Some {| job_src := 0%nat; job_start := Num 2; job_duration := Num 5;
          job_stage := AwaitRun |}.
Proof.
  apply (pending_trim_is_isolated session_trimming).
  - exact reachable_session_trimming.
  - vm_compute. reflexivity.
  - simpl. intros H. exact H.
Defined.

(** In every reachable state the URL a pending trim captured names a blob,
    so the resolution of [fetchFile] never ends in the [catch] block: the
    blob's bytes are written to [input.mp4], [ffmpeg.run] is called with
    the captured start and duration, and the error value is untouched. *)
Theorem fetch_resolved_runs_engine (s : State) (j : nat) (job : TrimJob) :
  reachable s ->
  jobs s !! j = Some job ->
  job_stage job = AwaitFetch ->
  exists blob,
    blobs (dom s) !! job_src job = Some blob /\
    let s' := step (FetchResolved j) s in
    running s' j /\
    FS (ffmpeg s') !! "input.mp4" = Some (blob_data blob) /\
    calls (ffmpeg s') =
      (calls (ffmpeg s) ++
         [CallWriteFile "input.mp4" (blob_data blob);
          CallRun (trim_args (job_start job) (job_duration job))])%list /\
    error (ui s') = error (ui s).
Proof.
  intros Hs Hj Hst.
  pose proof (sto_jobs _ (reachable_store_invariant s Hs) j job Hj) as Hlt.
  assert (Hex : exists blob, blobs (dom s) !! job_src job = Some blob)
    by (apply lookup_lt_length; exact Hlt).
  destruct Hex as [blob Hb].
  exists blob. split; [exact Hb |].
  simpl. unfold trim_fetched. rewrite Hj. cbv beta iota. rewrite Hst, Hb. simpl.
  split; [| split; [| split]].
  - eexists. split; [apply lookup_insert_eq | reflexivity].
  - apply lookup_insert_eq.
  - rewrite <- app_assoc. reflexivity.
  - reflexivity.
Qed.

Lemma fetch_resolved_runs_engine_witness :
  exists blob,
    blobs (dom (step TrimClick session_ready)) !! 0%nat = Some blob /\
    let s' := step (FetchResolved 0) (step TrimClick session_ready) in
    running s' 0 /\
    FS (ffmpeg s') !! "input.mp4" = Some (blob_data blob) /\
    calls (ffmpeg s') =
      (calls (ffmpeg (step TrimClick session_ready)) ++
         [CallWriteFile "input.mp4" (blob_data blob);
          CallRun (trim_args (Num 2) (Num 5))])%list /\
    error (ui s') = error (ui (step TrimClick session_ready)).
Proof.
  apply (fetch_resolved_runs_engine (step TrimClick session_ready) 0
           {| job_src := 0%nat; job_start := Num 2; job_duration := Num 5;
              job_stage := AwaitFetch |}).
  - apply reachable_step. unfold session_ready, session_sampled, session_loaded,
      session_chosen. reach.
  - vm_compute. reflexivity.
  - reflexivity.
Defined.

(** When [ffmpeg.run] resolves and [output.mp4] exists, the component
    reads it, wraps exactly those bytes in a blob of type [video/mp4] and
    points [trimmedSrc] at its fresh URL; the call is over, and neither the
    error nor the progress value is touched. *)
Theorem trim_success_publishes_output (s : State) (j : nat) (data : bytes) :
  running s j ->
  FS (ffmpeg s) !! "output.mp4" = Some data ->
  let s' := step (RunResolved j) s in
  let url := length (blobs (dom s)) in
  trimmedSrc (ui s') = Some url /\
  blobs (dom s') !! url = Some {| blob_data := data; blob_type := "video/mp4" |} /\
  jobs s' !! j = None /\
  calls (ffmpeg s') = (calls (ffmpeg s) ++ [CallReadFile "output.mp4"])%list /\
  error (ui s') = error (ui s) /\
  processingProgress (ui s') = processingProgress (ui s).
Proof.
  intros (job & Hj & Hst) Hout. simpl.
  unfold trim_ran, FS_readFile. rewrite Hj. cbv beta iota. rewrite Hst, Hout. simpl.
  split; [reflexivity |]. split; [| split; [| auto]].
  - rewrite lookup_app_r, Nat.sub_diag; [reflexivity | lia].
  - apply lookup_delete_eq.
Qed.

Lemma trim_success_publishes_output_witness :
  let s := step (EngineWrite "output.mp4" [Byte.x02]) session_trimming in
  let s' := step (RunResolved 0) s in
  let url := length (blobs (dom s)) in
  trimmedSrc (ui s') = Some url /\
  blobs (dom s') !! url = Some {| blob_data := [Byte.x02]; blob_type := "video/mp4" |} /\
  jobs s' !! 0%nat = None /\
  calls (ffmpeg s') = (calls (ffmpeg s) ++ [CallReadFile "output.mp4"])%list /\
  error (ui s') = error (ui s) /\
  processingProgress (ui s') = processingProgress (ui s).
Proof.
  apply (trim_success_publishes_output
           (step (EngineWrite "output.mp4" [Byte.x02]) session_trimming) 0 [Byte.x02]).
  - eexists. split; [vm_compute; reflexivity | reflexivity].
  - vm_compute. reflexivity.
Defined.

(** In every reachable state, what [trimmedSrc] offers for download is a
    blob of type [video/mp4] made from an engine output, behind a URL other
    than the source's; and the engine is ready. *)
Theorem download_is_an_engine_output (s : State) (u : Url) :
  reachable s ->
  trimmedSrc (ui s) = Some u ->
  ffmpegReady (ui s) = true /\
  videoSrc (ui s) <> Some u /\
  exists b, blobs (dom s) !! u = Some b /\ blob_type b = "video/mp4".
Proof.
  intros Hs Hu. pose proof (reachable_store_invariant s Hs) as Hsto.
  split.
  - destruct (ffmpegReady (ui s)) eqn:E; [reflexivity |].
    rewrite (sto_gate _ Hsto E) in Hu. discriminate.
  - exact (sto_trimmed _ Hsto u Hu).
Qed.

Lemma download_is_an_engine_output_witness :
  ffmpegReady (ui session_retrimming) = true /\
  videoSrc (ui session_retrimming) <> Some 1%nat /\
  exists b, blobs (dom session_retrimming) !! 1%nat = Some b /\
            blob_type b = "video/mp4".
Proof.
  apply (download_is_an_engine_output session_retrimming 1).
  - exact reachable_session_retrimming.
  - vm_compute. reflexivity.
Defined.

(** Choosing another file does not cancel a running trim: the file change
    resets [trimmedSrc], the call stays pending, and when its run resolves
    the trimmed bytes of the earlier source are published beside the new
    source. *)
Theorem reload_does_not_cancel_trim
    (s : State) (j : nat) (file : Blob) (data : bytes) :
  running s j ->
  FS (ffmpeg s) !! "output.mp4" = Some data ->
  let s1 := step (FileChange (Some file)) s in
  let s2 := step (RunResolved j) s1 in
  trimmedSrc (ui s1) = None /\
  running s1 j /\
  videoSrc (ui s2) = Some (length (blobs (dom s))) /\
  blobs (dom s2) !! length (blobs (dom s)) = Some file /\
  trimmedSrc (ui s2) = Some (S (length (blobs (dom s)))) /\
  blobs (dom s2) !! S (length (blobs (dom s))) =
    Some {| blob_data := data; blob_type := "video/mp4" |}.
Proof.
  intros (job & Hj & Hst) Hout. simpl.
  split; [reflexivity |]. split; [exists job; auto |].
  unfold trim_ran, FS_readFile. simpl. rewrite Hj. cbv beta iota. rewrite Hst, Hout. simpl.
  rewrite length_app. simpl. rewrite Nat.add_1_r.
  split; [reflexivity |]. split; [| split; [reflexivity |]].
  - rewrite lookup_app_l by (rewrite length_app; simpl; lia).
    rewrite lookup_app_r, Nat.sub_diag; [reflexivity | lia].
  - rewrite lookup_app_r by (rewrite length_app; simpl; lia).
    rewrite length_app. simpl.
    replace (S (length (blobs (dom s))) - (length (blobs (dom s)) + 1))%nat with 0%nat by lia.
    reflexivity.
Qed.

Lemma reload_does_not_cancel_trim_witness :
  let s := step (EngineWrite "output.mp4" [Byte.x02]) session_trimming in
  let s1 := step (FileChange (Some sample_file)) s in
  let s2 := step (RunResolved 0) s1 in
  trimmedSrc (ui s1) = None /\
  running s1 0 /\
  videoSrc (ui s2) = Some (length (blobs (dom s))) /\
  blobs (dom s2) !! length (blobs (dom s)) = Some sample_file /\
  trimmedSrc (ui s2) = Some (S (length (blobs (dom s)))) /\
  blobs (dom s2) !! S (length (blobs (dom s))) =
    Some {| blob_data := [Byte.x02]; blob_type := "video/mp4" |}.
Proof.
  apply (reload_does_not_cancel_trim
           (step (EngineWrite "output.mp4" [Byte.x02]) session_trimming) 0
           sample_file [Byte.x02]).
  - eexists. split; [vm_compute; reflexivity | reflexivity].
  - vm_compute. reflexivity.
Defined.

(** ** The cursor at the edges *)

(** While the mounted video's duration is NaN (its metadata have not
    arrived), [getCursorPosition] returns NaN: the guard tests
    [duration === 0] only. *)
Theorem cursor_is_NaN_until_metadata (s : State) :
  mounted s = true ->
  duration (video (dom s)) = NaN ->
  getCursorPosition s = NaN.
Proof.
  intros Hm Hd. unfold getCursorPosition, videoRef, timelineRef.
  rewrite Hm, Hd. simpl.
  destruct (cursorTime (ui s)); reflexivity.
Qed.

Lemma cursor_is_NaN_until_metadata_witness : getCursorPosition session_chosen = NaN.
Proof. apply (cursor_is_NaN_until_metadata session_chosen); reflexivity. Defined.

(** With a positive finite duration and the cursor time at or beyond it,
    [getCursorPosition] is the full track width: [Math.min] clamps
    above. *)
Theorem cursor_is_clamped_to_track_width (s : State) (t d : Q) :
  mounted s = true ->
  cursorTime (ui s) = Num t ->
  duration (video (dom s)) = Num d ->
  (0 < d)%Q -> (d <= t)%Q ->
  (0 <= clientWidth (dom s))%Z ->
  strict_eq (getCursorPosition s) (of_Z (clientWidth (dom s))) = true.
Proof.
  intros Hm Hc Hd Hpos Hdt Hw. apply inject_Z_nonneg in Hw.
  unfold getCursorPosition, videoRef, timelineRef. rewrite Hm, Hc, Hd.
  simpl strict_eq.
  destruct (Qeq_bool d 0) eqn:Ez.
  { apply Qeq_bool_iff in Ez. lra. }
  unfold div. rewrite (sign_Gt d Hpos). unfold of_Z. simpl mul.
  set (w := inject_Z (clientWidth (dom s))) in *.
  assert (Hr : (1 <= t / d)%Q) by (apply Qle_shift_div_l; [exact Hpos | lra]).
  destruct (Math_min_Num (t / d * w) w) as [[-> Hle] | [-> _]]; simpl.
  - apply Qeq_bool_iff. assert (w <= t / d * w)%Q by nra. lra.
  - apply Qeq_bool_iff. reflexivity.
Qed.

Lemma cursor_is_clamped_to_track_width_witness :
  strict_eq (getCursorPosition (step (TimeUpdate (Num 25) false false) session_sampled))
    (of_Z 600) = true.
Proof.
  apply (cursor_is_clamped_to_track_width
           (step (TimeUpdate (Num 25) false false) session_sampled) 25 20).
  - vm_compute. reflexivity.
  - vm_compute. reflexivity.
  - vm_compute. reflexivity.
  - lra.
  - lra.
  - vm_compute. intros H. discriminate H.
Defined.

(** When playback ends, [onEnded] puts the cursor time at the duration and
    [getCursorPosition] is then the full track width. *)
Theorem ended_puts_cursor_at_the_end (s : State) (d : Q) :
  mounted s = true ->
  duration (video (dom s)) = Num d ->
  (0 < d)%Q ->
  (0 <= clientWidth (dom s))%Z ->
  cursorTime (ui (step Ended s)) = Num d /\
  strict_eq (getCursorPosition (step Ended s)) (of_Z (clientWidth (dom s))) = true.
Proof.
  intros Hm Hd Hpos Hw.
  assert (Hc : cursorTime (ui (step Ended s)) = Num d).
  { simpl. rewrite Hm. simpl. exact Hd. }
  split; [exact Hc |].
  assert (Hm' : mounted (step Ended s) = true) by (simpl; rewrite Hm; exact Hm).
  assert (Hd' : duration (video (dom (step Ended s))) = Num d)
    by (simpl; rewrite Hm; exact Hd).
  assert (Hw' : clientWidth (dom (step Ended s)) = clientWidth (dom s))
    by (simpl; rewrite Hm; reflexivity).
  rewrite <- Hw'. apply (cursor_is_clamped_to_track_width _ d d); auto; try lra.
  rewrite Hw'. exact Hw.
Qed.

Lemma ended_puts_cursor_at_the_end_witness :
  cursorTime (ui (step Ended session_sampled)) = Num 20 /\
  strict_eq (getCursorPosition (step Ended session_sampled)) (of_Z 600) = true.
Proof.
  apply (ended_puts_cursor_at_the_end session_sampled 20).
  - vm_compute. reflexivity.
  - vm_compute. reflexivity.
  - lra.
  - vm_compute. intros H. discriminate H.
Defined.

(** ** Sampling, further *)

Lemma step_without_context ev s :
  context2d (dom s) = false -> frames (ui s) = [] -> seeked (dom s) = [] ->
  context2d (dom (step ev s)) = false /\
  frames (ui (step ev s)) = [] /\ seeked (dom (step ev s)) = [].
Proof.
  intros Hc Hf Hq. destruct ev; simpl;
    try (handler_cases; auto; congruence).
  - destruct (mounted s) eqn:Hm; [| auto].
    unfold captureFrames, videoRef.
    change (mounted (set_video ?v s)) with (mounted s). rewrite Hm.
    change (context2d (dom (set_video ?v s))) with (context2d (dom s)).
    rewrite Hc. simpl. auto.
  - destruct (mounted s) eqn:Hm; [| auto].
    unfold dispatch_seeked. simpl. rewrite Hq. simpl. auto.
Qed.

(** When the canvas yields no 2d context, [captureFrames] returns at once
    every time: no sequence of events ever registers a [seeked] handler or
    publishes a frame. *)
Theorem no_context_no_strip (w : Z) (evs : list Event) :
  let s := run_events evs (init false w) in
  frames (ui s) = [] /\ seeked (dom s) = [].
Proof.
  simpl.
  assert (H : forall s, context2d (dom s) = false -> frames (ui s) = [] ->
            seeked (dom s) = [] ->
            frames (ui (run_events evs s)) = [] /\ seeked (dom (run_events evs s)) = []).
  { induction evs as [| ev evs IH]; intros s Hc Hf Hq; [auto |].
    simpl. destruct (step_without_context ev s Hc Hf Hq) as (? & ? & ?).
    now apply IH. }
  apply H; reflexivity.
Qed.

Lemma sampling_keeps_refl s : sampling_keeps s s.
Proof. unfold sampling_keeps. auto 20. Qed.

Lemma sampling_keeps_trans s1 s2 s3 :
  sampling_keeps s1 s2 -> sampling_keeps s2 s3 -> sampling_keeps s1 s3.
Proof. unfold sampling_keeps. intuition congruence. Qed.

Lemma seeked_run_keeps n s : sampling_keeps s (run_events (repeat Seeked n) s).
Proof.
  revert s. induction n as [| n IH]; intros s; [apply sampling_keeps_refl |].
  simpl. eapply sampling_keeps_trans; [| apply IH].
  exact (sampling_step_keeps Seeked s I).
Qed.

Lemma filechange_keeps_sampling (q : Q) (k : nat) (file : Blob) (s : State) :
  sampling_at q k s -> sampling_at q k (step (FileChange (Some file)) s).
Proof.
  intros (Hm & old & thumbs & Hq & Ht). split; [reflexivity |].
  exists old, thumbs. split; [exact Hq | exact Ht].
Qed.

(** Choosing another file does not cancel a pending [captureFrames] call
    either.  After [k] of its samples a file is chosen; the remaining
    settled seeks complete the old call, which publishes a strip whose
    times are those of the old duration while [videoSrc] names the new
    file. *)
Theorem pending_sampler_survives_reload
    (s : State) (D : Q) (k : nat) (file : Blob) :
  mounted s = true ->
  context2d (dom s) = true ->
  (k <= frameCount)%nat ->
  let s' := run_events
              (LoadedMetadata (Num D) :: repeat Seeked k ++
               FileChange (Some file) :: repeat Seeked (S frameCount - k)) s in
  videoSrc (ui s') = Some (length (blobs (dom s))) /\
  blobs (dom s') !! length (blobs (dom s)) = Some file /\
  map time (frames (ui s')) = strip_times (div (Num D) (of_nat frameCount)).
Proof.
  intros Hm Hc Hk s'.
  set (s1 := step (LoadedMetadata (Num D)) s).
  set (s2 := run_events (repeat Seeked k) s1).
  set (s3 := step (FileChange (Some file)) s2).
  set (s4 := run_events (repeat Seeked (frameCount - k)) s3).
  assert (Es' : s' = step Seeked s4).
  { subst s' s4 s3 s2 s1.
    replace (S frameCount - k)%nat with (S (frameCount - k)) by lia.
    cbn [repeat]. rewrite repeat_cons.
    unfold run_events. cbn [fold_left].
    rewrite fold_left_app. cbn [fold_left]. rewrite fold_left_app. reflexivity. }
  assert (H1 : sampling_at (D / inject_Z 10) 0 s1) by now apply loadedmetadata_starts.
  assert (H2 : sampling_at (D / inject_Z 10) k s2)
    by (apply (seeked_iterates _ k 0); [lia | exact H1]).
  assert (H3 : sampling_at (D / inject_Z 10) k s3) by now apply filechange_keeps_sampling.
  assert (H4 : sampling_at (D / inject_Z 10) frameCount s4).
  { replace frameCount with (k + (frameCount - k))%nat at 1 by lia.
    apply seeked_iterates; [lia | exact H3]. }
  assert (Hb2 : blobs (dom s2) = blobs (dom s)).
  { pose proof (sampling_keeps_trans _ _ _
                  (sampling_step_keeps (LoadedMetadata (Num D)) s I)
                  (seeked_run_keeps k s1)) as K.
    unfold sampling_keeps in K. tauto. }
  assert (K : sampling_keeps s3 s').
  { rewrite Es'. eapply sampling_keeps_trans; [apply seeked_run_keeps |].
    exact (sampling_step_keeps Seeked s4 I). }
  destruct K as (Kv & _ & _ & _ & _ & _ & _ & _ & _ & Kb & _).
  rewrite Kv, Kb. subst s3. simpl. rewrite Hb2.
  split; [reflexivity |]. split.
  - rewrite lookup_app_r, Nat.sub_diag; [reflexivity | lia].
  - rewrite Es'. apply (seeked_publishes _ _ H4).
Qed.

Lemma pending_sampler_survives_reload_witness :
  let s' := run_events
              (LoadedMetadata (Num 20) :: repeat Seeked 3 ++
               FileChange (Some sample_file) :: repeat Seeked (S frameCount - 3))
              session_chosen in
  videoSrc (ui s') = Some (length (blobs (dom session_chosen))) /\
  blobs (dom s') !! length (blobs (dom session_chosen)) = Some sample_file /\
  map time (frames (ui s')) = strip_times (div (Num 20) (of_nat frameCount)).
Proof.
  apply (pending_sampler_survives_reload session_chosen 20 3 sample_file).
  - reflexivity.
  - reflexivity.
  - unfold frameCount. lia.
Defined.

Lemma seeked_advances_alone (src : option Url) (q : Q) (k : nat) (s : State) :
  (k < frameCount)%nat ->
  sampling_alone src q k s -> sampling_alone src q (S k) (step Seeked s).
Proof.
  intros Hk (Hm & Hv & Hc & thumbs & Hq & Hok).
  simpl. rewrite Hm. unfold dispatch_seeked. simpl. rewrite Hq.
  cbn [run_handlers fold_left]. rewrite seeked_handler_next by exact Hk.
  rewrite sample_time_Num. unfold assign_currentTime. cbn [isFinite snd].
  split; [exact Hm |]. split; [exact Hv |]. split; [reflexivity |].
  eexists. split; [reflexivity |].
  apply Forall_app. split; [exact Hok |].
  constructor; [| constructor]. simpl. unfold capture. simpl.
  rewrite Hv, Hc. reflexivity.
Qed.

Lemma seeked_iterates_alone (src : option Url) (q : Q) (n : nat) :
  forall k s, (k + n <= frameCount)%nat -> sampling_alone src q k s ->
    sampling_alone src q (k + n) (run_events (repeat Seeked n) s).
Proof.
  induction n as [| n IH]; intros k s Hk Hs.
  - rewrite Nat.add_0_r. exact Hs.
  - simpl. replace (k + S n)%nat with (S k + n)%nat by lia.
    apply IH; [lia |]. apply seeked_advances_alone; [lia | exact Hs].
Qed.

(** When no other [captureFrames] call is pending and nothing else moves
    the video, every frame of the published strip shows the picture of the
    current source at the frame's own time: each capture waits for its own
    seek to settle. *)
Theorem sampled_pictures_show_their_times (s : State) (D : Q) :
  mounted s = true ->
  context2d (dom s) = true ->
  seeked (dom s) = [] ->
  let s' := run_events (LoadedMetadata (Num D) :: repeat Seeked (S frameCount)) s in
  Forall (fun f => image f = {| pic_src := videoSrc (ui s); pic_at := time f |})
    (frames (ui s')).
Proof.
  intros Hm Hc Hq s'.
  set (s1 := step (LoadedMetadata (Num D)) s).
  assert (H1 : sampling_alone (videoSrc (ui s)) (D / inject_Z 10) 0 s1).
  { subst s1. simpl. rewrite Hm. unfold captureFrames, videoRef.
    change (mounted (set_video ?v s)) with (mounted s). rewrite Hm.
    change (context2d (dom (set_video ?v s))) with (context2d (dom s)). rewrite Hc.
    split; [exact Hm |]. split; [reflexivity |]. split; [reflexivity |].
    exists []. split; [| constructor]. simpl. rewrite Hq. reflexivity. }
  pose proof (seeked_iterates_alone _ _ frameCount 0 s1 (Nat.le_refl _) H1) as H2.
  cbn [Nat.add] in H2.
  set (s2 := run_events (repeat Seeked frameCount) s1) in *.
  assert (Es' : s' = step Seeked s2).
  { subst s' s2 s1. cbn [repeat]. rewrite repeat_cons.
    unfold run_events. cbn [fold_left]. rewrite fold_left_app. reflexivity. }
  rewrite Es'. clear Es'. clearbody s2. clear H1. clearbody s1.
  destruct H2 as (Hm2 & Hv2 & Hc2 & thumbs & Hq2 & Hok).
  simpl. rewrite Hm2. unfold dispatch_seeked. simpl. rewrite Hq2.
  cbn [run_handlers fold_left]. rewrite seeked_handler_last. simpl.
  apply Forall_app. split; [exact Hok |].
  constructor; [| constructor]. simpl. unfold capture. simpl.
  rewrite Hv2, Hc2. reflexivity.
Qed.

Lemma sampled_pictures_show_their_times_witness :
  let s' := run_events (LoadedMetadata (Num 20) :: repeat Seeked (S frameCount))
              session_chosen in
  Forall (fun f => image f = {| pic_src := videoSrc (ui session_chosen);
                                pic_at := time f |})
    (frames (ui s')).
Proof.
  apply (sampled_pictures_show_their_times session_chosen 20); reflexivity.
Defined.

Lemma finite_sample_interval (iv : number) :
  isFinite (sample_time iv 1) = true -> exists q, iv = Num q.
Proof.
  destruct iv as [q | | |]; try discriminate. eauto.
Qed.

(** In every reachable state the published strip is empty, or its times
    are [0, q, 2q, ..., 10q] for one finite interval [q]. *)
Theorem published_strip_is_evenly_spaced (s : State) :
  reachable s ->
  frames (ui s) = [] \/
  exists q, map time (frames (ui s)) =
              map (fun k => Num (inject_Z (Z.of_nat k) * q)) (seq 0 (S frameCount)).
Proof.
  intros Hs. pose proof (reachable_invariant s Hs) as Hinv.
  destruct (inv_strip _ Hinv) as [E | [iv E]]; [now left |]. right.
  pose proof (inv_finite _ Hinv) as Hfin. unfold finite_times in Hfin.
  assert (Hiv : exists q, iv = Num q).
  { apply finite_sample_interval.
    apply (Forall_fmap (A := Frame) (B := number) time
             (fun t => isFinite t = true)) in Hfin.
    change (map time (frames (ui s))) with (time <$> frames (ui s)) in E.
    rewrite E in Hfin. rewrite Forall_lookup in Hfin.
    apply (Hfin 1%nat). reflexivity. }
  destruct Hiv as [q ->]. exists q. exact E.
Qed.

Lemma published_strip_is_evenly_spaced_witness :
  frames (ui session_sampled) = [] \/
  exists q, map time (frames (ui session_sampled)) =
              map (fun k => Num (inject_Z (Z.of_nat k) * q)) (seq 0 (S frameCount)).
Proof.
  apply (published_strip_is_evenly_spaced session_sampled).
  exact reachable_session_sampled.
Defined.

(** ** Gate, progress and error *)

(** [trimVideo] leaves the state untouched exactly when the engine is not
    ready or no source is loaded. *)
Theorem trimVideo_is_rejected_iff (s : State) :
  trimVideo s = s <-> ffmpegReady (ui s) = false \/ videoSrc (ui s) = None.
Proof.
  unfold trimVideo. split.
  - intros H. destruct (ffmpegReady (ui s)); [| now left].
    destruct (videoSrc (ui s)); [| now right].
    apply (f_equal next_job) in H. simpl in H. lia.
  - intros [-> | ->]; [reflexivity |]. destruct (ffmpegReady (ui s)); reflexivity.
Qed.

(** [processingProgress] changes only when a file is chosen, a trim is
    submitted, or the engine reports progress.  The end of a trim, success
    or failure, leaves the last reported value in place. *)
Theorem progress_changes_only_on_reset_or_report (ev : Event) (s : State) :
  ~ sets_progress ev ->
  processingProgress (ui (step ev s)) = processingProgress (ui s).
Proof.
  intros Hev.
  by_event ev s; try congruence; handler_cases; auto; try congruence;
    try (exfalso; apply Hev; exact I).
Qed.

Lemma progress_changes_only_on_reset_or_report_witness :
  let s := step (FfmpegProgress (Num 0.5)) session_trimming in
  processingProgress (ui (step (RunRejected 0) s)) = processingProgress (ui s).
Proof.
  apply (progress_changes_only_on_reset_or_report (RunRejected 0)).
  simpl. intros H. exact H.
Defined.

Lemma step_error_fits ev s :
  invariant s -> store_invariant s -> error_fits s -> error_fits (step ev s).
Proof.
  intros Hinv Hsto He. unfold error_fits in *.
  pose proof (sto_loaded _ Hsto) as Hloaded.
  assert (Hgate : forall j job, jobs s !! j = Some job -> ffmpegReady (ui s) = true)
    by (intros j job H; apply (inv_jobs_gate _ Hinv j job H)).
  by_event ev s;
    try (match goal with
         | H1 : ffmpegReady (ui ?x) = _, H2 : error (ui ?x) = _, H3 : ffmpeg ?x = _ |- _ =>
             rewrite H1, H2, H3; exact He
         end);
    handler_cases; auto;
    try (right; right; split; [reflexivity | eapply Hgate; eassumption]);
    try (destruct He as [He | [(He & Hr & Hl) | (He & Hr)]];
         [ left; congruence
         | first [ congruence | right; left; repeat split; congruence ]
         | first [ congruence | right; right; split; congruence ] ]).
  right. left. split; [reflexivity |]. split; [| reflexivity].
  destruct (ffmpegReady (ui s)); [| reflexivity].
  specialize (Hloaded eq_refl). congruence.
Qed.

(** In every reachable state the error value is null, or the load message
    with an engine that failed to load, or the trim message with a ready
    engine. *)
Theorem error_fits_the_engine (s : State) :
  reachable s ->
  error (ui s) = None \/
  (error (ui s) = Some msg_load_failed /\
   ffmpegReady (ui s) = false /\ loading (ffmpeg s) = false) \/
  (error (ui s) = Some msg_trim_failed /\ ffmpegReady (ui s) = true).
Proof.
  induction 1 as [ctx w | ev s Hs IH].
  - left. reflexivity.
  - apply step_error_fits;
      [now apply reachable_invariant | now apply reachable_store_invariant | exact IH].
Qed.

Lemma error_fits_the_engine_witness :
  error (ui session_dead) = None \/
  (error (ui session_dead) = Some msg_load_failed /\
   ffmpegReady (ui session_dead) = false /\ loading (ffmpeg session_dead) = false) \/
  (error (ui session_dead) = Some msg_trim_failed /\
   ffmpegReady (ui session_dead) = true).
Proof. apply (error_fits_the_engine session_dead). exact reachable_session_dead. Defined.


(** ** The cursor while playing *)

Lemma getCursorPosition_ratio (s : State) (t d : Q) :
  mounted s = true ->
  cursorTime (ui s) = Num t ->
  duration (video (dom s)) = Num d ->
  (0 <= t)%Q -> (t <= d)%Q -> (0 < d)%Q ->
  (0 <= clientWidth (dom s))%Z ->
  getCursorPosition s = Num (t / d * inject_Z (clientWidth (dom s))).
Proof.
  intros Hm Hc Hd H0t Htd Hpos Hw. apply inject_Z_nonneg in Hw.
  unfold getCursorPosition, videoRef, timelineRef. rewrite Hm, Hc, Hd.
  simpl strict_eq.
  destruct (Qeq_bool d 0) eqn:Ez.
  { apply Qeq_bool_iff in Ez. lra. }
  unfold div. rewrite (sign_Gt d Hpos). unfold of_Z. simpl mul.
  destruct (ratio_bounds t d H0t Htd Hpos) as [Hr0 Hr1].
  set (w := inject_Z (clientWidth (dom s))) in *.
  destruct (Math_min_Num (t / d * w) w) as [[-> _] | [_ Hlt]]; [reflexivity |].
  exfalso. nra.
Qed.

(** While playing, a position update to [t] in [[0, d]] puts the cursor at
    the fraction [t / d] of the track width. *)
Theorem cursor_follows_playback (s : State) (t d : Q) :
  mounted s = true ->
  duration (video (dom s)) = Num d ->
  (0 <= t)%Q -> (t <= d)%Q -> (0 < d)%Q ->
  (0 <= clientWidth (dom s))%Z ->
  getCursorPosition (step (TimeUpdate (Num t) false false) s) =
  Num (t / d * inject_Z (clientWidth (dom s))).
Proof.
  intros Hm Hd H0t Htd Hpos Hw.
  set (s1 := step (TimeUpdate (Num t) false false) s).
  assert (Hm1 : mounted s1 = true) by (subst s1; simpl; rewrite Hm; exact Hm).
  assert (Hc1 : cursorTime (ui s1) = Num t) by (subst s1; simpl; rewrite Hm; reflexivity).
  assert (Hd1 : duration (video (dom s1)) = Num d) by (subst s1; simpl; rewrite Hm; exact Hd).
  assert (Hw1 : clientWidth (dom s1) = clientWidth (dom s))
    by (subst s1; simpl; rewrite Hm; reflexivity).
  clearbody s1. rewrite <- Hw1.
  apply getCursorPosition_ratio; auto. rewrite Hw1. exact Hw.
Qed.

Lemma cursor_follows_playback_witness :
  getCursorPosition (step (TimeUpdate (Num 5) false false) session_sampled) =
  Num (5 / 20 * inject_Z (clientWidth (dom session_sampled))).
Proof.
  apply (cursor_follows_playback session_sampled 5 20).
  - vm_compute. reflexivity.
  - vm_compute. reflexivity.
  - lra.
  - lra.
  - lra.
  - vm_compute. intros H. discriminate H.
Defined.

(** ** The read after a run *)

(** Whenever [ffmpeg.run] resolves for a running trim, the component reads
    [output.mp4] from the engine's file system, once, and the engine
    receives that call whether the read returns the file or throws. *)
Theorem run_resolved_reads_output (s : State) (j : nat) :
  running s j ->
  calls (ffmpeg (step (RunResolved j) s)) =
  (calls (ffmpeg s) ++ [CallReadFile "output.mp4"])%list.
Proof.
  intros (job & Hj & Hst). simpl.
  unfold trim_ran, FS_readFile. rewrite Hj. cbv beta iota. rewrite Hst.
  destruct (FS (ffmpeg s) !! "output.mp4"); reflexivity.
Qed.

Lemma run_resolved_reads_output_witness :
  calls (ffmpeg (step (RunResolved 0) session_trimming)) =
  (calls (ffmpeg session_trimming) ++ [CallReadFile "output.mp4"])%list.
Proof.
  apply (run_resolved_reads_output session_trimming 0).
  eexists. split; [vm_compute; reflexivity | reflexivity].
Defined.
